(** * carpet: analysis-form unrolled networks for TV-regularised problems

    A shallow embedding of [carpet/utils.py] and [carpet/lista_analysis.py].

    Modelling conventions.
    - Scalars are exact rationals ([Qc]): the rounding of binary64, its
      infinities and its NaN are abstracted away, and a division by zero
      yields [0] as in [Qcinv].
    - A tensor is a 0-d scalar or a 2-d matrix carrying its shape and its
      entries by rows; tensors of other ranks do not occur.  Python floats
      and 0-d tensors are both [Scalar].
    - Exceptions are values of [exn]; a computation that may raise has type
      [result A].
    - External collaborators (pseudo-inverse, spectral norm, soft
      thresholding, the nested LASSO network, the base class) are the
      fields of the class [Collaborators]. *)

From Stdlib Require Import QArith Qcanon.
From stdpp Require Import base numbers list strings pretty gmap.

(** ** Python: exceptions and the calling convention *)

Module Py.

Inductive exn :=
| TypeError (msg : string)
| ValueError (msg : string)
| KeyError (key : string)
| IndexError (msg : string)
| RuntimeError (msg : string)
| AssertionError (msg : string)
| AttributeError (msg : string)
| NotImplementedError (msg : string).

Inductive result (A : Type) :=
| Ok (a : A)
| Raise (e : exn).
Arguments Ok {A} a.
Arguments Raise {A} e.

#[global] Instance result_ret : MRet result := @Ok.
#[global] Instance result_bind : MBind result := λ A B f m,
  match m with Ok a => f a | Raise e => Raise e end.
#[global] Instance result_fmap : FMap result := λ A B f m,
  match m with Ok a => Ok (f a) | Raise e => Raise e end.

Definition raises {A} (m : result A) : Prop := ∃ e, m = Raise e.

(** [d[k]] on a dict: [KeyError] when the key is absent. *)
Definition getitem {V} (d : gmap string V) (k : string) : result V :=
  match d !! k with Some v => Ok v | None => Raise (KeyError k) end.

(** [d.get(k, dflt)]. *)
Definition get {V} (d : gmap string V) (k : string) (dflt : V) : V :=
  default dflt (d !! k).

(** [for i in range(n): s = body(i, s)], stopping at the first exception. *)
Definition for_range {S} (n : nat) (body : nat → S → result S) (s : S) : result S :=
  foldl (λ acc i, acc ≫= body i) (Ok s) (seq 0 n).

(** A formal parameter: its name and its default, if it has one. *)
Record param (V : Type) := Param { p_name : string; p_default : option V }.
Arguments Param {V} _ _.
Arguments p_name {V} _.
Arguments p_default {V} _.

Definition quote (s : string) : string := "'" +:+ s +:+ "'".

(** The keywords of a call, in order: a keyword that names no formal
    parameter is unexpected, and one that names a parameter already given
    by position has multiple values. *)
Fixpoint bind_keywords {V} (fname : string) (sig : list (param V))
    (given : list string) (kw : list (string * V)) : result unit :=
  match kw with
  | [] => Ok ()
  | (k, _) :: kw' =>
      if bool_decide (k ∈ p_name <$> sig) then
        if bool_decide (k ∈ given)
        then Raise (TypeError (fname +:+ "() got multiple values for argument "
                                 +:+ quote k))
        else bind_keywords fname sig given kw'
      else Raise (TypeError (fname +:+ "() got an unexpected keyword argument "
                               +:+ quote k))
  end.

Definition kw_lookup {V} (kw : list (string * V)) (k : string) : option V :=
  (λ hit : nat * (string * V), hit.2.2) <$> list_find (λ p, p.1 = k) kw.

(** How many positional arguments a signature takes. *)
Definition takes {V} (sig : list (param V)) : string :=
  let required := length (filter (λ p, p_default p = None) sig) in
  if decide (required = length sig) then pretty (length sig)
  else "from " +:+ pretty required +:+ " to " +:+ pretty (length sig).

(** Fill the parameters left over after the positional ones: keyword, then
    default, else the parameter is missing. *)
Fixpoint fill_rest {V} (sig : list (param V)) (kw : list (string * V))
    : list (string * V) * list string :=
  match sig with
  | [] => ([], [])
  | p :: sig' =>
      let '(bound, missing) := fill_rest sig' kw in
      match kw_lookup kw (p_name p), p_default p with
      | Some v, _ => ((p_name p, v) :: bound, missing)
      | None, Some d => ((p_name p, d) :: bound, missing)
      | None, None => (bound, p_name p :: missing)
      end
  end.

(** The names of the missing parameters as CPython lists them. *)
Fixpoint name_list_and (names : list string) : string :=
  match names with
  | [] => ""
  | [m] => "and " +:+ quote m
  | m :: rest => quote m +:+ ", " +:+ name_list_and rest
  end.
Definition name_list (names : list string) : string :=
  match names with
  | [] => ""
  | [m] => quote m
  | [m1; m2] => quote m1 +:+ " and " +:+ quote m2
  | _ => name_list_and names
  end.

Definition missing_message (fname : string) (missing : list string) : string :=
  match missing with
  | [m] => fname +:+ "() missing 1 required positional argument: " +:+ quote m
  | _ => fname +:+ "() missing " +:+ pretty (length missing)
           +:+ " required positional arguments: " +:+ name_list missing
  end.

(** Binding of the positional arguments [pos] and the keyword arguments [kw]
    of a call of [fname] to a signature without variadic parameters, in the
    order in which CPython reports what is wrong. *)
Definition bind_args {V} (fname : string) (sig : list (param V))
    (pos : list V) (kw : list (string * V)) : result (list (string * V)) :=
  let given := zip (p_name <$> sig) pos in
  _ ← bind_keywords fname sig given.*1 kw;
  if bool_decide (length sig < length pos)%nat then
    Raise (TypeError (fname +:+ "() takes " +:+ takes sig
                        +:+ " positional arguments but "
                        +:+ pretty (length pos) +:+ " were given"))
  else
    let '(rest, missing) := fill_rest (drop (length pos) sig) kw in
    match missing with
    | [] => Ok (given ++ rest)
    | _ => Raise (TypeError (missing_message fname missing))
    end.

(** *** The builtins [repr] and [float] on strings *)

Definition is_char (code : nat) (c : Ascii.ascii) : bool :=
  Nat.eqb (Ascii.nat_of_ascii c) code.

Definition char (code : nat) : string :=
  String (Ascii.ascii_of_nat code) EmptyString.

Definition hex_digit (n : nat) : Ascii.ascii :=
  Ascii.ascii_of_nat (if Nat.ltb n 10 then 48 + n else 87 + n).

(** One character of [repr(s)] inside the quotes of code [q]: the quote
    and the backslash are escaped, and the control characters are written
    as Python writes them. *)
Definition repr_char (q : nat) (c : Ascii.ascii) : string :=
  let n := Ascii.nat_of_ascii c in
  if Nat.eqb n q || Nat.eqb n 92 then char 92 +:+ String c EmptyString
  else if Nat.eqb n 9 then char 92 +:+ "t"
  else if Nat.eqb n 10 then char 92 +:+ "n"
  else if Nat.eqb n 13 then char 92 +:+ "r"
  else if Nat.ltb n 32 || Nat.eqb n 127
       then char 92 +:+ "x"
              +:+ String (hex_digit (n / 16))
                    (String (hex_digit (n mod 16)) EmptyString)
  else String c EmptyString.

(** [repr(s)] of a string: in double quotes when [s] has a single quote
    and no double quote, in single quotes otherwise. *)
Definition repr_str (s : string) : string :=
  let l := String.list_ascii_of_string s in
  let q := if existsb (is_char 39) l && negb (existsb (is_char 34) l)
           then 34%nat else 39%nat in
  char q +:+ foldr (λ c acc, repr_char q c +:+ acc) EmptyString l +:+ char q.

(** The characters that [float] strips from both ends. *)
Definition is_space (c : Ascii.ascii) : bool :=
  let n := Ascii.nat_of_ascii c in
  (Nat.leb 9 n && Nat.leb n 13) || (Nat.leb 28 n && Nat.leb n 32).

Fixpoint lstrip (l : list Ascii.ascii) : list Ascii.ascii :=
  match l with
  | c :: l' => if is_space c then lstrip l' else l
  | [] => []
  end.

Definition strip (l : list Ascii.ascii) : list Ascii.ascii :=
  reverse (lstrip (reverse (lstrip l))).

Definition digit_of (c : Ascii.ascii) : option Z :=
  let n := Ascii.nat_of_ascii c in
  if Nat.leb 48 n && Nat.leb n 57 then Some (Z.of_nat (n - 48)) else None.

(** The digits after a first one, with single underscores between digits:
    the number read so far, how many digits it has, and what is left. *)
Fixpoint more_digits (l : list Ascii.ascii) (acc : Z) (n : nat)
    : Z * nat * list Ascii.ascii :=
  match l with
  | c :: l' =>
      match digit_of c with
      | Some d => more_digits l' (10 * acc + d)%Z (S n)
      | None =>
          if is_char 95 c then
            match l' with
            | c' :: l'' =>
                match digit_of c' with
                | Some d => more_digits l'' (10 * acc + d)%Z (S n)
                | None => (acc, n, l)
                end
            | [] => (acc, n, l)
            end
          else (acc, n, l)
      end
  | [] => (acc, n, l)
  end.

(** [digitpart ::= digit (["_"] digit)*] *)
Definition digitpart (l : list Ascii.ascii)
    : option (Z * nat * list Ascii.ascii) :=
  match l with
  | c :: l' => (λ d, more_digits l' d 1) <$> digit_of c
  | [] => None
  end.

Definition sign_of (l : list Ascii.ascii) : bool * list Ascii.ascii :=
  match l with
  | c :: l' =>
      if is_char 45 c then (true, l')
      else if is_char 43 c then (false, l') else (false, l)
  | [] => (false, l)
  end.

(** [number ::= [digitpart] "." digitpart | digitpart ["."]]: the digits
    read as one integer, and how many of them follow the point. *)
Definition number (l : list Ascii.ascii)
    : option (Z * nat * list Ascii.ascii) :=
  match digitpart l with
  | Some (i, _, c :: l') =>
      if is_char 46 c then
        match digitpart l' with
        | Some (f, k, rest) => Some (i * 10 ^ Z.of_nat k + f, k, rest)%Z
        | None => Some (i, 0%nat, l')
        end
      else Some (i, 0%nat, c :: l')
  | Some (i, _, []) => Some (i, 0%nat, [])
  | None =>
      match l with
      | c :: l' => if is_char 46 c then digitpart l' else None
      | [] => None
      end
  end.

(** [exponent ::= ("e" | "E") [sign] digitpart], or nothing. *)
Definition exponent (l : list Ascii.ascii) : option (Z * list Ascii.ascii) :=
  match l with
  | c :: l' =>
      if is_char 101 c || is_char 69 c then
        let '(neg, l'') := sign_of l' in
        match digitpart l'' with
        | Some (e, _, rest) => Some (if neg then (- e)%Z else e, rest)
        | None => None
        end
      else Some (0%Z, l)
  | [] => Some (0%Z, l)
  end.

Definition pow10 (e : Z) : Qc :=
  match e with
  | Z0 => Q2Qc 1
  | Zpos p => Q2Qc (inject_Z (10 ^ Zpos p))
  | Zneg p => Qcinv (Q2Qc (inject_Z (10 ^ Zpos p)))
  end.

(** The number that a string spells for [float]: white space around
    [[sign] number [exponent]].  The spellings of the infinities and of NaN
    have no value among exact rationals and are left out. *)
Definition float_literal (s : string) : option Qc :=
  let '(neg, l) := sign_of (strip (String.list_ascii_of_string s)) in
  match number l with
  | Some (m, k, l) =>
      match exponent l with
      | Some (e, []) =>
          let q := Qcmult (Q2Qc (inject_Z m)) (pow10 (e - Z.of_nat k)) in
          Some (if neg then Qcopp q else q)
      | _ => None
      end
  | None => None
  end.

End Py.
Import Py.

(** ** Tensors: 0-d and 2-d arrays of exact rationals *)

Module Torch.

Local Open Scope Qc_scope.

Inductive tensor :=
| Scalar (q : Qc)
| Matrix (r c : nat) (e : list (list Qc)).

#[global] Instance tensor_eq_dec : EqDecision tensor.
Proof. solve_decision. Defined.

(** [t.shape] *)
Definition shape (t : tensor) : list nat :=
  match t with Scalar _ => [] | Matrix r c _ => [r; c] end.

(** The entry read at [(i, j)]; a scalar reads the same everywhere, and an
    entry missing from the stored rows reads as [0]. *)
Definition entry (t : tensor) (i j : nat) : Qc :=
  match t with
  | Scalar q => q
  | Matrix _ _ e => default 0 (e !! i ≫= (.!! j))
  end.

(** The [r × c] matrix whose entry [(i, j)] is [f i j]. *)
Definition tabulate (r c : nat) (f : nat → nat → Qc) : tensor :=
  Matrix r c ((λ i, f i <$> seq 0 c) <$> seq 0 r).

(** The stored rows agree with the declared shape. *)
Definition wf (t : tensor) : bool :=
  match t with
  | Scalar _ => true
  | Matrix r c e =>
      bool_decide (length e = r) && forallb (λ row, bool_decide (length row = c)) e
  end.

Definition sum_upto (n : nat) (f : nat → Qc) : Qc :=
  foldr Qcplus 0 (f <$> seq 0 n).

Definition half : Qc := Q2Qc (1 # 2).

(** *** Broadcasting of element-wise operations *)

Definition bcompat (a b : nat) : bool :=
  bool_decide (a = b) || bool_decide (a = 1%nat) || bool_decide (b = 1%nat).
Definition bdim (a b : nat) : nat := if decide (a = 1%nat) then b else a.
Definition bidx (d i : nat) : nat := if decide (d = 1%nat) then 0%nat else i.

Definition broadcastable (a b : tensor) : bool :=
  match a, b with
  | Matrix r c _, Matrix r' c' _ => bcompat r r' && bcompat c c'
  | _, _ => true
  end.

(** The value of an element-wise operation whenever it is defined. *)
Definition ew2 (f : Qc → Qc → Qc) (a b : tensor) : tensor :=
  match a, b with
  | Scalar p, Scalar q => Scalar (f p q)
  | Scalar p, Matrix r c _ => tabulate r c (λ i j, f p (entry b i j))
  | Matrix r c _, Scalar q => tabulate r c (λ i j, f (entry a i j) q)
  | Matrix r c _, Matrix r' c' _ =>
      tabulate (bdim r r') (bdim c c')
        (λ i j, f (entry a (bidx r i) (bidx c j)) (entry b (bidx r' i) (bidx c' j)))
  end.

Definition binop (f : Qc → Qc → Qc) (a b : tensor) : result tensor :=
  if broadcastable a b then Ok (ew2 f a b)
  else Raise (RuntimeError "The size of tensor a must match the size of tensor b").

Definition add := binop Qcplus.
Definition sub := binop Qcminus.
Definition mul := binop Qcmult.
Definition div := binop Qcdiv.

Definition ew1 (f : Qc → Qc) (a : tensor) : tensor :=
  match a with
  | Scalar q => Scalar (f q)
  | Matrix r c _ => tabulate r c (λ i j, f (entry a i j))
  end.

(** *** Matrix product and transposition *)

Definition mm (a b : tensor) : tensor :=
  match a, b with
  | Matrix r c _, Matrix _ c' _ =>
      tabulate r c' (λ i j, sum_upto c (λ l, entry a i l * entry b l j))
  | _, _ => Scalar 0
  end.

(** [a.matmul(b)] *)
Definition matmul (a b : tensor) : result tensor :=
  match a, b with
  | Matrix _ c _, Matrix r' _ _ =>
      if decide (c = r') then Ok (mm a b)
      else Raise (RuntimeError "mat1 and mat2 shapes cannot be multiplied")
  | _, _ => Raise (RuntimeError "both arguments to matmul need to be at least 1D")
  end.

(** [a.t()] *)
Definition transpose (a : tensor) : tensor :=
  match a with
  | Scalar q => Scalar q
  | Matrix r c _ => tabulate c r (λ i j, entry a j i)
  end.

(** *** Constructors, slices and reductions *)

(** [torch.zeros((r, c))] *)
Definition zeros (r c : nat) : tensor := tabulate r c (λ _ _, 0).

(** [np.eye(n, k=k)], for [k = 0] and [k = -1] *)
Definition eye (n : nat) : tensor :=
  tabulate n n (λ i j, if decide (i = j) then 1 else 0).
Definition eye_below (n : nat) : tensor :=
  tabulate n n (λ i j, if decide (i = S j) then 1 else 0).

(** [a[:, :-1]] *)
Definition drop_last_column (a : tensor) : result tensor :=
  match a with
  | Scalar _ => Raise (IndexError "too many indices for array")
  | Matrix r c _ => Ok (tabulate r (c - 1) (entry a))
  end.

(** [a[:, 0][:, None]] *)
Definition column0 (a : tensor) : tensor :=
  match a with
  | Scalar q => Scalar q
  | Matrix r _ _ => tabulate r 1 (λ i _, entry a i 0)
  end.
Definition first_column (a : tensor) : result tensor :=
  match a with
  | Matrix _ (S _) _ => Ok (column0 a)
  | Matrix _ O _ => Raise (IndexError "index 0 is out of bounds for dimension 1 with size 0")
  | Scalar _ => Raise (IndexError "too many indices for tensor of dimension 0")
  end.

Definition hcat (a b : tensor) : tensor :=
  match a, b with
  | Matrix r c _, Matrix _ c' _ =>
      tabulate r (c + c')
        (λ i j, if decide (j < c)%nat then entry a i j else entry b i (j - c))
  | _, _ => Scalar 0
  end.

(** [torch.cat([a, b], axis=1)] *)
Definition cat1 (a b : tensor) : result tensor :=
  match a, b with
  | Matrix r _ _, Matrix r' _ _ =>
      if decide (r = r') then Ok (hcat a b)
      else Raise (RuntimeError "Sizes of tensors must match except in dimension 1")
  | _, _ => Raise (RuntimeError "zero-dimensional tensor cannot be concatenated")
  end.

Definition prefix_sums (a : tensor) : tensor :=
  match a with
  | Scalar q => Scalar q
  | Matrix r c _ => tabulate r c (λ i j, sum_upto (S j) (entry a i))
  end.

(** [torch.cumsum(a, dim=1)] *)
Definition cumsum1 (a : tensor) : result tensor :=
  match a with
  | Matrix _ _ _ => Ok (prefix_sums a)
  | Scalar _ => Raise (IndexError "Dimension out of range")
  end.

Definition Qcsign (q : Qc) : Qc :=
  if decide (0 < q) then 1 else if decide (q < 0) then - 1 else 0.

(** [a.sign()] *)
Definition sign : tensor → tensor := ew1 Qcsign.

Definition Qcclamp (lo hi q : Qc) : Qc :=
  if decide (q < lo) then lo else if decide (hi < q) then hi else q.

(** [torch.clamp(a, lo, hi)] *)
Definition clamp (a : tensor) (lo hi : Qc) : tensor := ew1 (Qcclamp lo hi) a.

(** [np.atleast_2d(a)] *)
Definition atleast_2d (a : tensor) : tensor :=
  match a with
  | Scalar q => Matrix 1 1 [[q]]
  | Matrix _ _ _ => a
  end.

End Torch.
Import Torch.

(** ** Values passed through Python calls *)

Inductive pyval :=
| PyNone
| PyTensor (t : tensor)
| PyFloat (q : Qc)
| PyStr (s : string)
| PyBool (b : bool).

(** A group of named parameters, and the groups of a network by name. *)
Abbreviation params := (gmap string tensor).
Abbreviation groups := (gmap string (gmap string tensor)).

(** ** The collaborators outside [utils.py] and [lista_analysis.py] *)

(** A nested network of [lista_synthesis.ListaLASSO], known by the arguments
    it was constructed with. *)
Record ListaLASSO := {
  lasso_A : tensor;
  lasso_n_layers : nat;
  lasso_learn_th : bool;
  lasso_initial_parameters : option groups;
  lasso_name : string;
  lasso_device : option string;
}.

(** The attributes that [lista_base.ListaBase] keeps for every network. *)
Record ListaBase := {
  n_layers : nat;
  learn_th : bool;
  max_iter : nat;
  net_solver_type : string;
  name : string;
  verbose : nat;
  device : option string;
  parameter_groups : groups;
  force_learn_groups : list string;
}.

(** The arguments of [ListaBase.__init__]. *)
Record base_args := {
  arg_n_layers : nat;
  arg_learn_th : bool;
  arg_max_iter : nat;
  arg_net_solver_type : string;
  arg_initial_parameters : option groups;
  arg_name : string;
  arg_verbose : nat;
  arg_device : option string;
}.

Class Collaborators := {
  (** [torch.pinverse] *)
  pinverse : tensor → tensor;
  (** [np.linalg.norm(., ord=2)] *)
  norm2 : tensor → Qc;
  (** [proximity.pseudo_soft_th_tensor] *)
  pseudo_soft_th_tensor : tensor → tensor → tensor → tensor;
  (** [proximity_tv.ProxTV_l1.apply] *)
  ProxTV_l1_apply : tensor → tensor → tensor;
  (** [net(x=u, lbda=l)] for a nested network *)
  ListaLASSO_call : ListaLASSO → tensor → tensor → tensor;
  (** [net.parameter_groups] for a nested network *)
  ListaLASSO_parameter_groups : ListaLASSO → groups;
  (** [parameters.ravel_group_params] and [parameters.unravel_group_params] *)
  ravel_group_params : groups → params;
  unravel_group_params : params → groups;
  (** [ListaBase._register_parameters(parameters, group_name=...)] *)
  register_parameters : params → string → ListaBase → ListaBase;
  (** [ListaBase.__init__], given the subclass's
      [get_initial_layer_parameters] as a function of the base attributes
      set so far and of the layer *)
  ListaBase_init : (ListaBase → nat → params) → base_args → result ListaBase;
}.

(** ** [carpet/utils.py] *)

Section utils.
Context `{Collaborators}.
Local Open Scope Qc_scope.

(** Modelled from the spec: [checks.check_tensor] is not under src.  It is
    the coercion to a tensor on a device, which keeps the values; what is
    no array is rejected. *)
Definition check_tensor (x : option tensor) (device : option string) : result tensor :=
  match x with
  | Some t => Ok t
  | None => Raise (AssertionError "Invalid type in check_tensor")
  end.

Definition v_to_u (v x : tensor) (lbda : Qc) (A D inv_A Psi_A : option tensor)
    (device : option string) : result tensor :=
  v ← check_tensor (Some v) device;
  x ← check_tensor (Some x) device;
  '(inv_A, Psi_A) ←
    match inv_A, Psi_A with
    | None, None =>
        match A, D with
        | Some A, Some D =>
            A ← check_tensor (Some A) device;
            D ← check_tensor (Some D) device;
            let inv_A := pinverse A in
            Psi_A ← matmul inv_A D;
            Ok (Some inv_A, Some Psi_A)
        | _, _ =>
            Raise (ValueError "If inv_A and Psi_A are None, A and D should be given")
        end
    | _, _ => Ok (inv_A, Psi_A)
    end;
  inv_A ← check_tensor inv_A device;
  Psi_A ← check_tensor Psi_A device;
  vPsi ← matmul v (transpose Psi_A);
  lvPsi ← mul (Scalar lbda) vPsi;
  r ← sub x lvPsi;
  matmul r inv_A.

(** [rows, cols = t.shape] *)
Definition shape2 (t : tensor) : result (nat * nat) :=
  match t with
  | Matrix r c _ => Ok (r, c)
  | Scalar _ => Raise (ValueError "not enough values to unpack (expected 2, got 0)")
  end.

Definition init_vuz (A D x : tensor) (lbda : Qc) (v0 : option tensor)
    (device : option string) (force_numpy : bool)
    : result (tensor * tensor * tensor) :=
  A ← check_tensor (Some A) device;
  D ← check_tensor (Some D) device;
  x ← check_tensor (Some x) device;
  '(n_samples, _) ← shape2 x;
  '(n_atoms, _) ← shape2 A;
  v0 ← match v0 with
       | None =>
           if decide (n_atoms = 0%nat)
           then Raise (RuntimeError "Trying to create tensor with negative dimension -1")
           else Ok (zeros n_samples (n_atoms - 1))
       | Some v0 => Ok v0
       end;
  u0 ← v_to_u v0 x lbda (Some A) (Some D) None None device;
  c0 ← first_column u0;
  uD ← matmul u0 D;
  z0 ← cat1 c0 uD;
  if force_numpy then Ok (atleast_2d v0, atleast_2d u0, atleast_2d z0)
  else Ok (v0, u0, z0).

(** The signature [init_vuz(A, D, x, lbda, v0=None, device='cpu',
    force_numpy=False)]. *)
Definition init_vuz_signature : list (param pyval) :=
  [ Param "A" None; Param "D" None; Param "x" None; Param "lbda" None;
    Param "v0" (Some PyNone); Param "device" (Some (PyStr "cpu"));
    Param "force_numpy" (Some (PyBool false)) ].

Definition bound (args : list (string * pyval)) (k : string) : pyval :=
  default PyNone (kw_lookup args k).

Definition as_tensor (v : pyval) : option tensor :=
  match v with
  | PyTensor t => Some t
  | PyFloat q => Some (Scalar q)
  | _ => None
  end.

(** [float(v)] *)
Definition to_float (v : pyval) : result Qc :=
  match v with
  | PyFloat q => Ok q
  | PyBool b => Ok (if b then 1 else 0)
  | PyTensor (Scalar q) => Ok q
  | PyTensor (Matrix 1 1 e) => Ok (entry (Matrix 1 1 e) 0 0)
  | PyTensor _ => Raise (ValueError "only one element tensors can be converted to Python scalars")
  | PyStr s =>
      match float_literal s with
      | Some q => Ok q
      | None =>
          Raise (ValueError ("could not convert string to float: " +:+ repr_str s))
      end
  | PyNone => Raise (TypeError "float() argument must be a string or a number, not 'NoneType'")
  end.

Definition as_device (v : pyval) : option string :=
  match v with PyStr s => Some s | _ => None end.

Definition truthy (v : pyval) : bool :=
  match v with
  | PyNone => false
  | PyBool b => b
  | PyFloat q => bool_decide (q ≠ 0)
  | PyStr s => bool_decide (s ≠ "")
  | PyTensor _ => true
  end.

(** A call [init_vuz(pos..., kw...)] as Python evaluates it: the arguments
    are bound to the signature, then the body runs.  The bound values are
    coerced as the body coerces them, in its order: a [v0] that is given is
    first looked at by [v_to_u], after the shapes of [x] and [A] have been
    unpacked. *)
Definition init_vuz_call (pos : list pyval) (kw : list (string * pyval))
    : result (tensor * tensor * tensor) :=
  args ← bind_args "init_vuz" init_vuz_signature pos kw;
  let device := as_device (bound args "device") in
  A ← check_tensor (as_tensor (bound args "A")) device;
  D ← check_tensor (as_tensor (bound args "D")) device;
  x ← check_tensor (as_tensor (bound args "x")) device;
  lbda ← to_float (bound args "lbda");
  v0 ← match bound args "v0" with
       | PyNone => Ok None
       | v =>
           _ ← shape2 x;
           _ ← shape2 A;
           Some <$> check_tensor (as_tensor v) device
       end;
  init_vuz A D x lbda v0 device (truthy (bound args "force_numpy")).

End utils.

(** ** [carpet/lista_analysis.py] *)

Definition LEARN_PROX_PER_LAYER : string := "per-layer".
Definition LEARN_PROX_GLOBAL : string := "global".
Definition LEARN_PROX_FALSE : string := "none".
Definition ALL_LEARN_PROX : list string :=
  [LEARN_PROX_FALSE; LEARN_PROX_GLOBAL; LEARN_PROX_PER_LAYER].

(** [repr] of a list of strings, as an f-string prints it. *)
Definition join (sep : string) (l : list string) : string :=
  match l with
  | [] => ""
  | s :: l' => foldl (λ acc s', acc +:+ sep +:+ s') s l'
  end.
Definition repr_list (l : list string) : string :=
  "[" +:+ join ", " (quote <$> l) +:+ "]".

(** [f'layer-{layer_id}'] *)
Definition layer_key (layer_id : nat) : string := "layer-" +:+ pretty layer_id.

Definition device_val (d : option string) : pyval :=
  match d with Some s => PyStr s | None => PyNone end.

(** Modelled from the spec: [ListaBase.check_output_layer] is not under
    src.  The requested layer defaults to [n_layers], and a value above
    [n_layers] is an invalid argument. *)
Definition check_output_layer (self : ListaBase) (output_layer : option nat)
    : result nat :=
  match output_layer with
  | None => Ok (n_layers self)
  | Some k =>
      if decide (n_layers self < k)%nat
      then Raise (ValueError "Requested output from out-of-bound layer")
      else Ok k
  end.

(** [A.shape[0]] *)
Definition shape0 (A : tensor) : result nat :=
  match A with
  | Matrix r _ _ => Ok r
  | Scalar _ => Raise (IndexError "tuple index out of range")
  end.

(** [(np.eye(n_atoms, k=-1) - np.eye(n_atoms, k=0))[:, :-1]] *)
Definition difference_operator (n_atoms : nat) : result tensor :=
  E ← sub (eye_below n_atoms) (eye n_atoms);
  drop_last_column E.

Section lista_analysis.
Context `{Collaborators}.
Local Open Scope Qc_scope.

(** *** ListaTV *)

(** What [self.prox_tv] holds: nothing yet, one shared nested network, or a
    dict of nested networks by layer. *)
Inductive prox_slot :=
| NoProx
| SharedProx (net : ListaLASSO)
| ProxByLayer (nets : gmap nat ListaLASSO).

Record ListaTV := {
  tv_base : ListaBase;
  tv_learn_prox : string;
  tv_use_moreau : bool;
  tv_n_inner_layers : nat;
  tv_prox_tv : prox_slot;
  tv_A : tensor;
  tv_I_k : tensor;
  tv_D : tensor;
  tv_A_ : tensor;
  tv_inv_A_ : tensor;
  tv_l_ : Qc;
}.

Definition tv_with (self : ListaTV) (base : ListaBase) (slot : prox_slot) : ListaTV :=
  {| tv_base := base; tv_learn_prox := tv_learn_prox self;
     tv_use_moreau := tv_use_moreau self;
     tv_n_inner_layers := tv_n_inner_layers self; tv_prox_tv := slot;
     tv_A := tv_A self; tv_I_k := tv_I_k self; tv_D := tv_D self;
     tv_A_ := tv_A_ self; tv_inv_A_ := tv_inv_A_ self; tv_l_ := tv_l_ self |}.

Definition base_with_groups (b : ListaBase) (g : groups) : ListaBase :=
  {| n_layers := n_layers b; learn_th := learn_th b; max_iter := max_iter b;
     net_solver_type := net_solver_type b; name := name b;
     verbose := verbose b; device := device b; parameter_groups := g;
     force_learn_groups := force_learn_groups b |}.

Definition base_force_learn (b : ListaBase) (g : string) : ListaBase :=
  {| n_layers := n_layers b; learn_th := learn_th b; max_iter := max_iter b;
     net_solver_type := net_solver_type b; name := name b;
     verbose := verbose b; device := device b;
     parameter_groups := parameter_groups b;
     force_learn_groups := force_learn_groups b ++ [g] |}.

(** [{k.split(':', 1)[1]: v for k, v in layer_params.items()
      if k.startswith('prox:')}] *)
Definition strip_prox_prefix (layer_params : params) : params :=
  list_to_map
    (omap (λ kv : string * tensor,
             if String.prefix "prox:" kv.1
             then Some (String.substring 5 (String.length kv.1 - 5) kv.1, kv.2)
             else None)
          (map_to_list layer_params)).

(** [self.prox_tv[layer_id] = net] *)
Definition prox_setitem (slot : prox_slot) (layer_id : nat) (net : ListaLASSO)
    : result prox_slot :=
  match slot with
  | ProxByLayer nets => Ok (ProxByLayer (<[layer_id := net]> nets))
  | SharedProx _ => Raise (TypeError "'ListaLASSO' object does not support item assignment")
  | NoProx => Raise (AttributeError "'ListaTV' object has no attribute 'prox_tv'")
  end.

(** [layer_id in self.prox_tv] *)
Definition prox_contains (slot : prox_slot) (layer_id : nat) : result bool :=
  match slot with
  | ProxByLayer nets => Ok (bool_decide (is_Some (nets !! layer_id)))
  | SharedProx _ => Raise (TypeError "argument of type 'ListaLASSO' is not iterable")
  | NoProx => Raise (AttributeError "'ListaTV' object has no attribute 'prox_tv'")
  end.

(** Returns the network with the new nested network stored, and
    [layer_params], which is updated in place. *)
Definition _initialize_prox_tv_per_layer (self : ListaTV) (layer_id : nat)
    (layer_params : params) (initial_parameters_prox : option groups)
    : result (ListaTV * params) :=
  let layer_prox_tv :=
    {| lasso_A := tv_I_k self; lasso_n_layers := tv_n_inner_layers self;
       lasso_learn_th := true;
       lasso_initial_parameters := initial_parameters_prox;
       lasso_name := "Prox-TV-Lista[layer=" +:+ pretty layer_id +:+ "]";
       lasso_device := device (tv_base self) |} in
  slot ← prox_setitem (tv_prox_tv self) layer_id layer_prox_tv;
  let layer_params :=
    map_fold (λ k p acc, <["prox:" +:+ k := p]> acc) layer_params
      (ravel_group_params (ListaLASSO_parameter_groups layer_prox_tv)) in
  Ok (tv_with self (tv_base self) slot, layer_params).

Definition ListaTV_get_global_parameters (self : ListaTV)
    (initial_parameters : groups) : result ListaTV :=
  if bool_decide (tv_learn_prox self ∈ [LEARN_PROX_GLOBAL; LEARN_PROX_FALSE]) then
    let initial_parameters_prox :=
      unravel_group_params (Py.get initial_parameters "prox" ∅) in
    let prox_tv :=
      {| lasso_A := tv_I_k self; lasso_n_layers := tv_n_inner_layers self;
         lasso_learn_th := true;
         lasso_initial_parameters := Some initial_parameters_prox;
         lasso_name := "Prox-TV-Lista";
         lasso_device := device (tv_base self) |} in
    let self := tv_with self (tv_base self) (SharedProx prox_tv) in
    if bool_decide (tv_learn_prox self = LEARN_PROX_GLOBAL) then
      let base :=
        register_parameters
          (ravel_group_params (ListaLASSO_parameter_groups prox_tv)) "prox"
          (tv_base self) in
      Ok (tv_with self (base_force_learn base "prox") (tv_prox_tv self))
    else Ok self
  else if bool_decide (tv_learn_prox self = LEARN_PROX_PER_LAYER) then
    for_range (n_layers (tv_base self))
      (λ layer_id self,
         present ← prox_contains (tv_prox_tv self) layer_id;
         if (present : bool) then Ok self
         else
           layer_params ← getitem (parameter_groups (tv_base self)) (layer_key layer_id);
           let initial_parameters_prox :=
             unravel_group_params (strip_prox_prefix layer_params) in
           '(self, layer_params) ←
             _initialize_prox_tv_per_layer self layer_id layer_params
               (Some initial_parameters_prox);
           (* [layer_params] is the dict held by [parameter_groups] *)
           Ok (tv_with self
                 (base_with_groups (tv_base self)
                    (<[layer_key layer_id := layer_params]>
                       (parameter_groups (tv_base self))))
                 (tv_prox_tv self)))
      self
  else
    Raise (NotImplementedError
             ("Parameter learn_prox should be in " +:+ repr_list ALL_LEARN_PROX
                +:+ ". Got " +:+ quote (tv_learn_prox self) +:+ ".")).

(** What the name [prox_tv] is bound to in a layer of [forward]. *)
Definition select_prox (self : ListaTV) (layer_id : nat) : result prox_slot :=
  if bool_decide (tv_learn_prox self = LEARN_PROX_PER_LAYER) then
    match tv_prox_tv self with
    | ProxByLayer nets =>
        match nets !! layer_id with
        | Some net => Ok (SharedProx net)
        | None => Raise (KeyError (pretty layer_id))
        end
    | SharedProx _ => Raise (TypeError "'ListaLASSO' object is not subscriptable")
    | NoProx => Raise (AttributeError "'ListaTV' object has no attribute 'prox_tv'")
    end
  else
    match tv_prox_tv self with
    | NoProx => Raise (AttributeError "'ListaTV' object has no attribute 'prox_tv'")
    | slot => Ok slot
    end.

(** [prox_tv(x=u, lbda=l)] *)
Definition call_prox (prox_tv : prox_slot) (u l : tensor) : result tensor :=
  match prox_tv with
  | SharedProx net => Ok (ListaLASSO_call net u l)
  | _ => Raise (TypeError "'dict' object is not callable")
  end.

(** The body of the loop of [ListaTV.forward]. *)
Definition ListaTV_layer (self : ListaTV) (x : tensor) (lbda : Qc)
    (layer_id : nat) (u : tensor) : result tensor :=
  layer_params ← getitem (parameter_groups (tv_base self)) (layer_key layer_id);
  Wx ← getitem layer_params "Wx";
  Wu ← getitem layer_params "Wu";
  let mul_lbda := Py.get layer_params "threshold" (Scalar (1 / tv_l_ self)) in
  mul_lbda ← check_tensor (Some mul_lbda) (device (tv_base self));
  prox_tv ← select_prox self layer_id;
  uWu ← matmul u Wu;
  xWx ← matmul x Wx;
  u ← add uWu xWx;
  l ← mul (Scalar lbda) mul_lbda;
  z ← call_prox prox_tv u l;
  cumsum1 z.

Definition ListaTV_forward (self : ListaTV) (x : tensor) (lbda : Qc)
    (output_layer : option nat) : result tensor :=
  output_layer ← check_output_layer (tv_base self) output_layer;
  '(_, u, _) ← init_vuz_call
    [PyTensor (tv_A self); PyTensor (tv_D self); PyTensor x]
    [("inv_A", PyTensor (tv_inv_A_ self));
     ("device", device_val (device (tv_base self)))];
  for_range output_layer (ListaTV_layer self x lbda) u.

(** *** LpgdTautString *)

Record LpgdTautString := {
  ts_base : ListaBase;
  ts_use_moreau : bool;
  ts_A : tensor;
  ts_I_k : tensor;
  ts_D : tensor;
  ts_A_ : tensor;
  ts_inv_A_ : tensor;
  ts_l_ : Qc;
}.

(** The body of the loop; the state is [(u, mul_lbda)]. *)
Definition LpgdTautString_layer (self : LpgdTautString) (x : tensor) (lbda : Qc)
    (layer_id : nat) (st : tensor * tensor) : result (tensor * tensor) :=
  let '(u, mul_lbda) := st in
  layer_params ← getitem (parameter_groups (ts_base self)) (layer_key layer_id);
  Wx ← getitem layer_params "Wx";
  Wu ← getitem layer_params "Wu";
  mul_lbda ← (if learn_th (ts_base self) then getitem layer_params "threshold"
              else Ok mul_lbda);
  uWu ← matmul u Wu;
  xWx ← matmul x Wx;
  u ← add uWu xWx;
  l ← mul (Scalar lbda) mul_lbda;
  Ok (ProxTV_l1_apply u l, mul_lbda).


(** *** The Condat-Vu update shared by both primal-dual variants *)

(** The variables [u], [v], [u_old], [v_old] of the loop. *)
Record cv_state := {
  cv_u : tensor;
  cv_v : tensor;
  cv_u_old : tensor;
  cv_v_old : tensor;
}.

(** *** CoupledCondatVu *)

Record CoupledCondatVu := {
  cc_base : ListaBase;
  cc_use_moreau : bool;
  cc_A : tensor;
  cc_D : tensor;
  cc_A_ : tensor;
  cc_D_ : tensor;
  cc_inv_A_ : tensor;
  cc_l_A : Qc;
  cc_l_D : Qc;
  cc_rho : Qc;
  cc_sigma : Qc;
  cc_tau : Qc;
}.

Definition cc_with_base (self : CoupledCondatVu) (base : ListaBase) : CoupledCondatVu :=
  {| cc_base := base; cc_use_moreau := cc_use_moreau self; cc_A := cc_A self;
     cc_D := cc_D self; cc_A_ := cc_A_ self; cc_D_ := cc_D_ self;
     cc_inv_A_ := cc_inv_A_ self; cc_l_A := cc_l_A self; cc_l_D := cc_l_D self;
     cc_rho := cc_rho self; cc_sigma := cc_sigma self; cc_tau := cc_tau self |}.

Definition CoupledCondatVu_get_initial_layer_parameters (self : CoupledCondatVu)
    (layer_id : nat) : params :=
  let layer_params : params := {[ "W_coupled" := cc_D self ]} in
  if learn_th (cc_base self) then <["threshold" := Scalar 1]> layer_params
  else layer_params.

(** The attributes are set first; [super().__init__] then fills the base. *)
Definition CoupledCondatVu_init (A : tensor) (n_layers : nat) (learn_th : bool)
    (max_iter : nat) (use_moreau : bool) (net_solver_type : string)
    (initial_parameters : option groups) (name : string) (verbose : nat)
    (device : option string) : result CoupledCondatVu :=
  n_atoms ← shape0 A;
  D ← difference_operator n_atoms;
  A_ ← check_tensor (Some A) device;
  D_ ← check_tensor (Some D) device;
  let inv_A_ := pinverse A_ in
  let l_A := norm2 A ^ 2 in
  let l_D := norm2 D ^ 2 in
  let rho := 1 in
  let sigma := half in
  let tau := 1 / (l_A / 2 + sigma * l_D ^ 2) in
  let self base :=
    {| cc_base := base; cc_use_moreau := use_moreau; cc_A := A; cc_D := D;
       cc_A_ := A_; cc_D_ := D_; cc_inv_A_ := inv_A_; cc_l_A := l_A;
       cc_l_D := l_D; cc_rho := rho; cc_sigma := sigma; cc_tau := tau |} in
  base ← ListaBase_init
    (λ base, CoupledCondatVu_get_initial_layer_parameters (self base))
    {| arg_n_layers := n_layers; arg_learn_th := learn_th;
       arg_max_iter := max_iter; arg_net_solver_type := net_solver_type;
       arg_initial_parameters := initial_parameters; arg_name := name;
       arg_verbose := verbose; arg_device := device |};
  Ok (self base).

(** The body of the loop of [CoupledCondatVu.forward]. *)
Definition CoupledCondatVu_layer (self : CoupledCondatVu) (x : tensor) (lbda : Qc)
    (layer_id : nat) (st : cv_state) : result cv_state :=
  let u_old := cv_u_old st in
  let v_old := cv_v_old st in
  layer_params ← getitem (parameter_groups (cc_base self)) (layer_key layer_id);
  W ← getitem layer_params "W_coupled";
  let mul_lbda := Py.get layer_params "threshold" (Scalar 1) in
  mul_lbda ← check_tensor (Some mul_lbda) (device (cc_base self));
  let sigma := Scalar (cc_sigma self) in
  let tau := Scalar (cc_tau self) in
  let rho := Scalar (cc_rho self) in
  (* primal descent *)
  uA ← matmul u_old (cc_A_ self);
  r ← sub uA x;
  g ← matmul r (transpose (cc_A_ self));
  tg ← mul (ew1 Qcopp tau) g;
  vW ← matmul v_old (transpose W);
  tvW ← mul tau vW;
  d ← sub tg tvW;
  u_new ← add u_old d;
  (* dual ascent *)
  u2 ← mul (Scalar 2) u_new;
  e ← sub u2 u_old;
  eW ← matmul e W;
  seW ← mul sigma eW;
  v_ ← add v_old seW;
  vs ← div v_ sigma;
  l ← mul (Scalar lbda) mul_lbda;
  si ← div (Scalar 1) sigma;
  sp ← mul sigma (pseudo_soft_th_tensor vs l si);
  v_new ← sub v_ sp;
  (* update *)
  ru ← mul rho u_new;
  cr ← sub (Scalar 1) rho;
  cu ← mul cr u_old;
  u ← add ru cu;
  rv ← mul rho v_new;
  cr' ← sub (Scalar 1) rho;
  cv ← mul cr' v_old;
  v ← add rv cv;
  (* storing *)
  Ok {| cv_u := u; cv_v := v; cv_u_old := u; cv_v_old := v |}.


(** *** StepCondatVu *)

Record StepCondatVu := {
  sc_base : ListaBase;
  sc_use_moreau : bool;
  sc_A : tensor;
  sc_D : tensor;
  sc_A_ : tensor;
  sc_D_ : tensor;
  sc_inv_A_ : tensor;
  sc_l_A : Qc;
  sc_l_D : Qc;
  sc_rho : Qc;
}.

Definition StepCondatVu_get_initial_layer_parameters (layer_id : nat) : params :=
  {[ "sigma" := Scalar half ]}.

(** The constructor, with what it prints. *)
Definition StepCondatVu_init (A : tensor) (n_layers : nat) (learn_th : bool)
    (max_iter : nat) (use_moreau : bool) (net_solver_type : string)
    (initial_parameters : option groups) (name : string) (verbose : nat)
    (device : option string) : list string * result StepCondatVu :=
  let attributes :=
    n_atoms ← shape0 A;
    D ← difference_operator n_atoms;
    A_ ← check_tensor (Some A) device;
    D_ ← check_tensor (Some D) device;
    let inv_A_ := pinverse A_ in
    let l_A := norm2 A ^ 2 in
    let l_D := norm2 D ^ 2 in
    let rho := 1 in
    Ok (λ base,
          {| sc_base := base; sc_use_moreau := use_moreau; sc_A := A;
             sc_D := D; sc_A_ := A_; sc_D_ := D_; sc_inv_A_ := inv_A_;
             sc_l_A := l_A; sc_l_D := l_D; sc_rho := rho |}) in
  match attributes with
  | Raise e => ([], Raise e)
  | Ok self =>
      ((if learn_th
        then ["In StepIstaLASSO learn_th can't be enable, ignore it."]
        else []),
       base ← ListaBase_init
         (λ _, StepCondatVu_get_initial_layer_parameters)
         {| arg_n_layers := n_layers; arg_learn_th := false;
            arg_max_iter := max_iter; arg_net_solver_type := net_solver_type;
            arg_initial_parameters := initial_parameters; arg_name := name;
            arg_verbose := verbose; arg_device := device |};
       Ok (self base))
  end.

(** The body of the loop of [StepCondatVu.forward]. *)
Definition StepCondatVu_layer (self : StepCondatVu) (x : tensor) (lbda : Qc)
    (layer_id : nat) (st : cv_state) : result cv_state :=
  let u_old := cv_u_old st in
  let v_old := cv_v_old st in
  layer_params ← getitem (parameter_groups (sc_base self)) (layer_key layer_id);
  sigma ← getitem layer_params "sigma";
  let sigma := clamp sigma half 2 in
  sl ← mul sigma (Scalar (sc_l_D self ^ 2));
  den ← add (Scalar (sc_l_A self / 2)) sl;
  tau ← div (Scalar 1) den;
  let rho := Scalar (sc_rho self) in
  (* primal descent *)
  uA ← matmul u_old (sc_A_ self);
  r ← sub uA x;
  g ← matmul r (transpose (sc_A_ self));
  tg ← mul (ew1 Qcopp tau) g;
  vD ← matmul v_old (transpose (sc_D_ self));
  tvD ← mul tau vD;
  d ← sub tg tvD;
  u_new ← add u_old d;
  (* dual ascent *)
  u2 ← mul (Scalar 2) u_new;
  e ← sub u2 u_old;
  eD ← matmul e (sc_D_ self);
  seD ← mul sigma eD;
  v_ ← add v_old seD;
  vs ← div v_ sigma;
  si ← div (Scalar 1) sigma;
  sp ← mul sigma (pseudo_soft_th_tensor vs (Scalar lbda) si);
  v_new ← sub v_ sp;
  (* update *)
  ru ← mul rho u_new;
  cr ← sub (Scalar 1) rho;
  cu ← mul cr u_old;
  u ← add ru cu;
  rv ← mul rho v_new;
  cr' ← sub (Scalar 1) rho;
  cv ← mul cr' v_old;
  v ← add rv cv;
  (* storing *)
  Ok {| cv_u := u; cv_v := v; cv_u_old := u; cv_v_old := v |}.

Definition StepCondatVu_forward (self : StepCondatVu) (x : tensor)
    (lbda : Qc) (output_layer : option nat) : result tensor :=
  output_layer ← check_output_layer (sc_base self) output_layer;
  '(v, u, _) ← init_vuz_call
    [PyTensor (sc_A self); PyTensor (sc_D self); PyTensor x]
    [("inv_A", PyTensor (sc_inv_A_ self));
     ("device", device_val (device (sc_base self)))];
  '(v_old, u_old, _) ← init_vuz_call
    [PyTensor (sc_A self); PyTensor (sc_D self); PyTensor x]
    [("device", device_val (device (sc_base self)))];
  cv_u <$> for_range output_layer (StepCondatVu_layer self x lbda)
    {| cv_u := u; cv_v := v; cv_u_old := u_old; cv_v_old := v_old |}.

(** *** StepSubGradTV *)

Record StepSubGradTV := {
  sg_base : ListaBase;
  sg_use_moreau : bool;
  sg_A : tensor;
  sg_D : tensor;
  sg_A_ : tensor;
  sg_D_ : tensor;
  sg_inv_A_ : tensor;
}.

Definition init_step_size : Qc := Q2Qc (1 # 10000000000).

Definition StepSubGradTV_get_initial_layer_parameters (layer_id : nat) : params :=
  {[ "step_size" := Scalar init_step_size ]}.

(** The constructor, with what it prints. *)
Definition StepSubGradTV_init (A : tensor) (n_layers : nat) (learn_th : bool)
    (use_moreau : bool) (max_iter : nat) (net_solver_type : string)
    (initial_parameters : option groups) (name : string) (verbose : nat)
    (device : option string) : list string * result StepSubGradTV :=
  let attributes :=
    n_atoms ← shape0 A;
    D ← difference_operator n_atoms;
    A_ ← check_tensor (Some A) device;
    D_ ← check_tensor (Some D) device;
    let inv_A_ := pinverse A_ in
    Ok (λ base,
          {| sg_base := base; sg_use_moreau := use_moreau; sg_A := A;
             sg_D := D; sg_A_ := A_; sg_D_ := D_; sg_inv_A_ := inv_A_ |}) in
  match attributes with
  | Raise e => ([], Raise e)
  | Ok self =>
      ((if learn_th
        then ["In StepSubGradTV learn_th can't be enable, ignore it."]
        else []),
       base ← ListaBase_init
         (λ _, StepSubGradTV_get_initial_layer_parameters)
         {| arg_n_layers := n_layers; arg_learn_th := false;
            arg_max_iter := max_iter; arg_net_solver_type := net_solver_type;
            arg_initial_parameters := initial_parameters; arg_name := name;
            arg_verbose := verbose; arg_device := device |};
       Ok (self base))
  end.

(** The body of the loop of [StepSubGradTV.forward]. *)
Definition StepSubGradTV_layer (self : StepSubGradTV) (x : tensor) (lbda : Qc)
    (layer_id : nat) (u : tensor) : result tensor :=
  layer_params ← getitem (parameter_groups (sg_base self)) (layer_key layer_id);
  step_size ← getitem layer_params "step_size";
  uA ← matmul u (sg_A_ self);
  r ← sub uA x;
  residual ← matmul r (transpose (sg_A_ self));
  uD ← matmul u (sg_D_ self);
  reg ← matmul (sign uD) (transpose (sg_D_ self));
  lreg ← mul (Scalar lbda) reg;
  grad ← add residual lreg;
  sg ← mul step_size grad;
  sub u sg.

Definition StepSubGradTV_forward (self : StepSubGradTV) (x : tensor)
    (lbda : Qc) (output_layer : option nat) : result tensor :=
  output_layer ← check_output_layer (sg_base self) output_layer;
  '(_, u, _) ← init_vuz_call
    [PyTensor (sg_A self); PyTensor (sg_D self); PyTensor x]
    [("device", device_val (device (sg_base self)))];
  for_range output_layer (StepSubGradTV_layer self x lbda) u.

End lista_analysis.

(** ** Predicates used by the statements *)

Definition unimplemented {A} (m : result A) : Prop :=
  ∃ msg, m = Raise (NotImplementedError msg).

Definition sc_with_groups (self : StepCondatVu) (g : groups) : StepCondatVu :=
  {| sc_base := base_with_groups (sc_base self) g;
     sc_use_moreau := sc_use_moreau self; sc_A := sc_A self; sc_D := sc_D self;
     sc_A_ := sc_A_ self; sc_D_ := sc_D_ self; sc_inv_A_ := sc_inv_A_ self;
     sc_l_A := sc_l_A self; sc_l_D := sc_l_D self; sc_rho := sc_rho self |}.

Definition sg_with_groups (self : StepSubGradTV) (g : groups) : StepSubGradTV :=
  {| sg_base := base_with_groups (sg_base self) g;
     sg_use_moreau := sg_use_moreau self; sg_A := sg_A self; sg_D := sg_D self;
     sg_A_ := sg_A_ self; sg_D_ := sg_D_ self; sg_inv_A_ := sg_inv_A_ self |}.

(** The two ways in which a call of [init_vuz] from a forward pass fails. *)
Definition unexpected_inv_A : exn :=
  TypeError "init_vuz() got an unexpected keyword argument 'inv_A'".
Definition missing_lbda : exn :=
  TypeError "init_vuz() missing 1 required positional argument: 'lbda'".

(** Element-wise and matrix operations, where they are defined. *)
Declare Scope tensor_scope.
Delimit Scope tensor_scope with T.
Infix "⊕" := (ew2 Qcplus) (at level 50, left associativity) : tensor_scope.
Infix "⊖" := (ew2 Qcminus) (at level 50, left associativity) : tensor_scope.
Infix "⊙" := (ew2 Qcmult) (at level 40, left associativity) : tensor_scope.
Infix "⊘" := (ew2 Qcdiv) (at level 40, left associativity) : tensor_scope.
Infix "∙" := mm (at level 40, left associativity) : tensor_scope.

(** ** A concrete setting: two atoms and the identity as mixing operator *)

Module Sample.

Local Open Scope Qc_scope.

Definition I2 : tensor := Matrix 2 2 [[1; 0]; [0; 1]].
Definition D2 : tensor := Matrix 2 1 [[- 1]; [1]].
Definition x0 : tensor := Matrix 1 2 [[1; 2]].
Definition v0 : tensor := Matrix 1 1 [[1]].

(** The binary64 number nearest to the square root of two. *)
Definition sqrt2 : Qc := Q2Qc (6369051672525773 # 4503599627370496).

Definition Qcabs (q : Qc) : Qc := if decide (q < 0) then - q else q.

(** Soft thresholding of every entry at level [l * s]. *)
Definition soft_th (z l s : tensor) : tensor :=
  let th := entry l 0 0 * entry s 0 0 in
  ew1 (λ q, if decide (Qcabs q ≤ th) then 0 else Qcsign q * (Qcabs q - th)) z.

Definition base_init (hook : ListaBase → nat → params) (a : base_args)
    : result ListaBase :=
  let b :=
    {| n_layers := arg_n_layers a; learn_th := arg_learn_th a;
       max_iter := arg_max_iter a; net_solver_type := arg_net_solver_type a;
       name := arg_name a; verbose := arg_verbose a; device := arg_device a;
       parameter_groups := ∅; force_learn_groups := [] |} in
  Ok (base_with_groups b
        (default
           (list_to_map ((λ i, (layer_key i, hook b i)) <$> seq 0 (arg_n_layers a)))
           (arg_initial_parameters a))).

(** Collaborators that are exact on this setting: the transpose is the
    pseudo-inverse of an orthogonal matrix, and the norms are those of [I2]
    and [D2]. *)
Definition collaborators : Collaborators :=
  {| pinverse := transpose;
     norm2 := λ t, if decide (t = D2) then sqrt2 else 1;
     pseudo_soft_th_tensor := soft_th;
     ProxTV_l1_apply := λ u _, u;
     ListaLASSO_call := λ _ u _, u;
     ListaLASSO_parameter_groups := λ _, ∅;
     ravel_group_params := λ _, ∅;
     unravel_group_params := λ _, ∅;
     register_parameters := λ p g b,
       base_with_groups b (<[g := p]> (parameter_groups b));
     ListaBase_init := base_init |}.

Definition base0 (groups0 : groups) : ListaBase :=
  {| n_layers := 1; learn_th := false; max_iter := 100;
     net_solver_type := "recursive"; name := "sample"; verbose := 0;
     device := None; parameter_groups := groups0; force_learn_groups := [] |}.

(** A [ListaTV] whose constructor has set the attributes, for a given
    [learn_prox]. *)
Definition lista_tv (learn_prox : string) (slot : prox_slot) (groups0 : groups)
    : ListaTV :=
  {| tv_base := base0 groups0; tv_learn_prox := learn_prox;
     tv_use_moreau := false; tv_n_inner_layers := 500; tv_prox_tv := slot;
     tv_A := I2; tv_I_k := I2; tv_D := D2; tv_A_ := I2; tv_inv_A_ := I2;
     tv_l_ := 1 |}.

Definition prox_net : ListaLASSO :=
  {| lasso_A := I2; lasso_n_layers := 500; lasso_learn_th := true;
     lasso_initial_parameters := Some ∅; lasso_name := "Prox-TV-Lista";
     lasso_device := None |}.

Definition coupled (groups0 : groups) : CoupledCondatVu :=
  {| cc_base := base0 groups0; cc_use_moreau := false; cc_A := I2; cc_D := D2;
     cc_A_ := I2; cc_D_ := D2; cc_inv_A_ := I2; cc_l_A := 1;
     cc_l_D := sqrt2 ^ 2; cc_rho := 1; cc_sigma := half;
     cc_tau := 1 / (1 / 2 + half * (sqrt2 ^ 2) ^ 2) |}.

Definition step_condat (groups0 : groups) : StepCondatVu :=
  {| sc_base := base0 groups0; sc_use_moreau := false; sc_A := I2; sc_D := D2;
     sc_A_ := I2; sc_D_ := D2; sc_inv_A_ := I2; sc_l_A := 1;
     sc_l_D := sqrt2 ^ 2; sc_rho := 1 |}.

Definition sub_grad (groups0 : groups) : StepSubGradTV :=
  {| sg_base := base0 groups0; sg_use_moreau := false; sg_A := I2; sg_D := D2;
     sg_A_ := I2; sg_D_ := D2; sg_inv_A_ := I2 |}.

(** Parameters of one layer for each variant. *)
Definition tv_groups : groups :=
  {[ "layer-0" := <["Wx" := I2]> {[ "Wu" := I2 ]} ]}.
Definition coupled_groups : groups :=
  {[ "layer-0" := <["W_coupled" := D2]> {[ "threshold" := Scalar 1 ]} ]}.
Definition step_groups : groups :=
  {[ "layer-0" := {[ "sigma" := Scalar (Q2Qc 10) ]} ]}.
Definition zero_step_groups : groups :=
  {[ "layer-0" := {[ "step_size" := Scalar 0 ]} ]}.

Definition state0 : cv_state :=
  {| cv_u := x0; cv_v := v0; cv_u_old := x0; cv_v_old := v0 |}.

End Sample.

(** ** More of [carpet/lista_analysis.py]: the loss and the initial weights *)

Definition Qcabsolute (q : Qc) : Qc := if decide (q < 0)%Qc then (- q)%Qc else q.

(** [torch.abs(a)] *)
Definition tabs : tensor → tensor := ew1 Qcabsolute.

(** The sum of all the entries of a tensor. *)
Definition total (a : tensor) : Qc :=
  match a with
  | Scalar q => q
  | Matrix r c _ => sum_upto r (λ i, sum_upto c (entry a i))
  end.

(** [a.sum()] *)
Definition tsum (a : tensor) : tensor := Scalar (total a).

(** [a[:, 1:]] *)
Definition drop_first_column (a : tensor) : result tensor :=
  match a with
  | Scalar _ => Raise (IndexError "too many indices for tensor of dimension 0")
  | Matrix r c _ => Ok (tabulate r (c - 1) (λ i j, entry a i (S j)))
  end.

(** A count as a scalar. *)
Definition Qc_of_nat (n : nat) : Qc := Q2Qc (inject_Z (Z.of_nat n)).

(** Element-wise operations and [a.dot(b)] of numpy arrays: as for tensors,
    but a mismatch of shapes is a [ValueError], and [dot] with a 0-d array
    multiplies. *)
Definition np_binop (f : Qc → Qc → Qc) (a b : tensor) : result tensor :=
  if broadcastable a b then Ok (ew2 f a b)
  else Raise (ValueError "operands could not be broadcast together").

Definition np_dot (a b : tensor) : result tensor :=
  match a, b with
  | Matrix _ c _, Matrix r' _ _ =>
      if decide (c = r') then Ok (mm a b)
      else Raise (ValueError "shapes not aligned")
  | _, _ => Ok (ew2 Qcmult a b)
  end.

Section loss.
(** [proximity_tv.RegTV.apply] *)
Variable RegTV_apply : tensor → tensor → Qc → tensor.
Local Open Scope Qc_scope.

(** [_ListaAnalysis._loss_fn], which reads [self.A_] and [self.use_moreau]. *)
Definition _loss_fn (A_ : tensor) (use_moreau : bool) (x : tensor) (lbda : Qc)
    (u : tensor) : result tensor :=
  n_samples ← shape0 x;
  uA ← matmul u A_;
  residual ← sub uA x;
  rr ← mul residual residual;
  loss ← mul (Scalar half) (tsum rr);
  loss ← (if use_moreau then Ok (RegTV_apply loss u lbda)
          else
            u1 ← drop_first_column u;
            u2 ← drop_last_column u;
            du ← sub u1 u2;
            l ← mul (Scalar lbda) (tsum (tabs du));
            add loss l);
  div loss (Scalar (Qc_of_nat n_samples)).

End loss.

Section initial_weights.
Context `{Collaborators}.
Local Open Scope Qc_scope.

Definition LpgdTautString_get_initial_layer_parameters (self : LpgdTautString)
    (layer_id : nat) : result params :=
  AAT ← np_dot (ts_A self) (transpose (ts_A self));
  AATl ← np_binop Qcdiv AAT (Scalar (ts_l_ self));
  Wu ← np_binop Qcminus (ts_I_k self) AATl;
  Wx ← np_binop Qcdiv (transpose (ts_A self)) (Scalar (ts_l_ self));
  let layer_params : params := <["Wx" := Wx]> {[ "Wu" := Wu ]} in
  Ok (if learn_th (ts_base self)
      then <["threshold" := Scalar (1 / ts_l_ self)]> layer_params
      else layer_params).

(** In per-layer mode the nested network of the layer is created as well,
    so the network is returned with the parameters. *)
Definition ListaTV_get_initial_layer_parameters (self : ListaTV)
    (layer_id : nat) : result (ListaTV * params) :=
  AAT ← np_dot (tv_A self) (transpose (tv_A self));
  AATl ← np_binop Qcdiv AAT (Scalar (tv_l_ self));
  Wu ← np_binop Qcminus (tv_I_k self) AATl;
  Wx ← np_binop Qcdiv (transpose (tv_A self)) (Scalar (tv_l_ self));
  let layer_params : params := <["Wx" := Wx]> {[ "Wu" := Wu ]} in
  let layer_params :=
    if learn_th (tv_base self)
    then <["threshold" := Scalar (1 / tv_l_ self)]> layer_params
    else layer_params in
  if bool_decide (tv_learn_prox self = LEARN_PROX_PER_LAYER)
  then _initialize_prox_tv_per_layer self layer_id layer_params None
  else Ok (self, layer_params).

End initial_weights.

(** The weights that [get_initial_layer_parameters] computes from [A],
    [I_k] and [L]. *)
Definition initial_weights (A I_k : tensor) (L : Qc) (with_threshold : bool)
    : params :=
  let layer_params : params :=
    <["Wx" := ew2 Qcdiv (transpose A) (Scalar L)]>
      {[ "Wu" := ew2 Qcminus I_k (ew2 Qcdiv (mm A (transpose A)) (Scalar L)) ]} in
  if with_threshold then <["threshold" := Scalar (1 / L)%Qc]> layer_params
  else layer_params.

(** ** A setting with initial weights and nested networks *)

Module Initial.

Import Sample.
Local Open Scope Qc_scope.

(** A constant signal: it has no variation. *)
Definition ones : tensor := Matrix 1 2 [[1; 1]].

Definition unit_step_groups : groups :=
  {[ "layer-0" := {[ "step_size" := Scalar 1 ]} ]}.

(** The group of layer 0 as [get_initial_layer_parameters] fills it. *)
Definition initial_groups : groups :=
  {[ "layer-0" := initial_weights I2 (eye 2) 1 false ]}.

Definition taut_string (groups0 : groups) : LpgdTautString :=
  {| ts_base := base0 groups0; ts_use_moreau := false; ts_A := I2;
     ts_I_k := eye 2; ts_D := D2; ts_A_ := I2; ts_inv_A_ := I2; ts_l_ := 1 |}.

Definition initial_coupled_groups : groups :=
  {[ "layer-0" := {[ "W_coupled" := D2 ]} ]}.
Definition initial_step_groups : groups :=
  {[ "layer-0" := {[ "sigma" := Scalar half ]} ]}.

(** Nested networks with one learnt threshold, which raveling keeps under
    the name of its group. *)
Definition nested_collaborators : Collaborators :=
  {| pinverse := transpose;
     norm2 := λ t, if decide (t = D2) then sqrt2 else 1;
     pseudo_soft_th_tensor := soft_th;
     ProxTV_l1_apply := λ u _, u;
     ListaLASSO_call := λ _ u _, u;
     ListaLASSO_parameter_groups := λ _,
       {[ "layer-0" := {[ "threshold" := Scalar 1 ]} ]};
     ravel_group_params := λ g,
       match g !! "layer-0" with
       | Some layer_params =>
           match layer_params !! "threshold" with
           | Some p => {[ "layer-0:threshold" := p ]}
           | None => ∅
           end
       | None => ∅
       end;
     unravel_group_params := λ p,
       match p !! "layer-0:threshold" with
       | Some t => {[ "layer-0" := {[ "threshold" := t ]} ]}
       | None => ∅
       end;
     register_parameters := λ p g b,
       base_with_groups b (<[g := p]> (parameter_groups b));
     ListaBase_init := base_init |}.

End Initial.

(** * Facts about the embedding *)

(** ** The error monad and loops *)

Lemma bind_Ok {A B} (a : A) (f : A → result B) : (Ok a ≫= f) = f a.
Proof. reflexivity. Qed.

Lemma bind_Raise {A B} (e : exn) (f : A → result B) : (Raise e ≫= f) = Raise e.
Proof. reflexivity. Qed.

Lemma bind_assoc {A B C} (m : result A) (f : A → result B) (g : B → result C) :
  ((m ≫= f) ≫= g) = (m ≫= λ a, f a ≫= g).
Proof. by destruct m. Qed.

Lemma fmap_Ok {A B} (a : A) (f : A → B) : f <$> Ok a = Ok (f a).
Proof. reflexivity. Qed.

Lemma for_range_0 {S} (body : nat → S → result S) (s : S) :
  for_range 0 body s = Ok s.
Proof. reflexivity. Qed.

(** One more round of a loop runs the body on the state the earlier rounds
    leave. *)
Lemma for_range_S {S} (n : nat) (body : nat → S → result S) (s : S) :
  for_range (Datatypes.S n) body s = for_range n body s ≫= body n.
Proof.
  unfold for_range. rewrite seq_S, foldl_app. reflexivity.
Qed.

(** A loop whose every round returns its state unchanged does nothing. *)
Lemma for_range_fixed {S} (n : nat) (body : nat → S → result S) (s : S) :
  (∀ i, (i < n)%nat → body i s = Ok s) → for_range n body s = Ok s.
Proof.
  induction n as [|n IH]; intros Hbody; [reflexivity|].
  rewrite for_range_S, IH by (intros; apply Hbody; lia).
  rewrite bind_Ok. apply Hbody. lia.
Qed.

(** An exception that leaves a loop was raised by one of its rounds. *)
Lemma for_range_Raise_inv {S} (n : nat) (body : nat → S → result S) (s : S) e :
  for_range n body s = Raise e → ∃ i s', (i < n)%nat ∧ body i s' = Raise e.
Proof.
  induction n as [|n IH]; [done|]. rewrite for_range_S.
  destruct (for_range n body s) as [s'|e'] eqn:Hn.
  - rewrite bind_Ok. intros Hbody. exists n, s'. split; [lia|done].
  - intros [= ->]. destruct (IH eq_refl) as (i & s' & Hi & Hbody).
    exists i, s'. split; [lia|done].
Qed.

Lemma getitem_Some {V} (d : gmap string V) (k : string) (v : V) :
  d !! k = Some v → getitem d k = Ok v.
Proof. unfold getitem. by intros ->. Qed.

(** ** Shapes *)

Section tensor_facts.
Local Open Scope Qc_scope.
Implicit Types (a b t : tensor) (f : Qc → Qc → Qc) (q : Qc) (r c k i j : nat).

Lemma shape_matrix t r c : shape t = [r; c] → ∃ e, t = Matrix r c e.
Proof. destruct t; intros [= <- <-]; eauto. Qed.

Lemma shape_tabulate r c g : shape (tabulate r c g) = [r; c].
Proof. reflexivity. Qed.

Lemma bcompat_refl r : bcompat r r = true.
Proof. unfold bcompat. by rewrite bool_decide_eq_true_2. Qed.

Lemma bdim_refl r : bdim r r = r.
Proof. unfold bdim. by case_decide. Qed.

Lemma bidx_lt r i : (i < r)%nat → bidx r i = i.
Proof. unfold bidx. case_decide; lia. Qed.

Lemma shape2_ok t r c : shape t = [r; c] → shape2 t = Ok (r, c).
Proof. intros [e ->]%shape_matrix. reflexivity. Qed.

Lemma matmul_ok a b r c k :
  shape a = [r; c] → shape b = [c; k] → matmul a b = Ok (a ∙ b)%T.
Proof.
  intros [ea ->]%shape_matrix [eb ->]%shape_matrix. unfold matmul.
  by rewrite decide_True.
Qed.

Lemma shape_mm a b r c c' k :
  shape a = [r; c] → shape b = [c'; k] → shape (a ∙ b)%T = [r; k].
Proof. intros [ea ->]%shape_matrix [eb ->]%shape_matrix. reflexivity. Qed.

Lemma shape_transpose a r c : shape a = [r; c] → shape (transpose a) = [c; r].
Proof. intros [ea ->]%shape_matrix. reflexivity. Qed.

Lemma binop_ok f a b r c :
  shape a = [r; c] → shape b = [r; c] → binop f a b = Ok (ew2 f a b).
Proof.
  intros [ea ->]%shape_matrix [eb ->]%shape_matrix. unfold binop. simpl.
  by rewrite !bcompat_refl.
Qed.

Lemma binop_scalars f p q : binop f (Scalar p) (Scalar q) = Ok (Scalar (f p q)).
Proof. reflexivity. Qed.

Lemma binop_scalar_l f q b : binop f (Scalar q) b = Ok (ew2 f (Scalar q) b).
Proof. reflexivity. Qed.

Lemma binop_scalar_r f a q : binop f a (Scalar q) = Ok (ew2 f a (Scalar q)).
Proof. by destruct a. Qed.

Lemma shape_ew2 f a b r c :
  shape a = [r; c] → shape b = [r; c] → shape (ew2 f a b) = [r; c].
Proof.
  intros [ea ->]%shape_matrix [eb ->]%shape_matrix. simpl.
  by rewrite !bdim_refl.
Qed.

Lemma shape_ew2_scalar_l f q b r c :
  shape b = [r; c] → shape (ew2 f (Scalar q) b) = [r; c].
Proof. by intros [eb ->]%shape_matrix. Qed.

Lemma shape_ew2_scalar_r f a q r c :
  shape a = [r; c] → shape (ew2 f a (Scalar q)) = [r; c].
Proof. by intros [ea ->]%shape_matrix. Qed.

Lemma shape_ew1 g a r c : shape a = [r; c] → shape (ew1 g a) = [r; c].
Proof. by intros [ea ->]%shape_matrix. Qed.

Lemma shape_sign a r c : shape a = [r; c] → shape (sign a) = [r; c].
Proof. apply shape_ew1. Qed.

Lemma shape_clamp a lo hi r c : shape a = [r; c] → shape (clamp a lo hi) = [r; c].
Proof. apply shape_ew1. Qed.

Lemma shape_zeros r c : shape (zeros r c) = [r; c].
Proof. reflexivity. Qed.

Lemma first_column_ok a r c :
  shape a = [r; S c] → first_column a = Ok (column0 a).
Proof. by intros [ea ->]%shape_matrix. Qed.

Lemma shape_column0 a r c : shape a = [r; c] → shape (column0 a) = [r; 1%nat].
Proof. by intros [ea ->]%shape_matrix. Qed.

Lemma cat1_ok a b r c c' :
  shape a = [r; c] → shape b = [r; c'] → cat1 a b = Ok (hcat a b).
Proof.
  intros [ea ->]%shape_matrix [eb ->]%shape_matrix. unfold cat1.
  by rewrite decide_True.
Qed.

Lemma shape_hcat a b r r' c c' :
  shape a = [r; c] → shape b = [r'; c'] → shape (hcat a b) = [r; (c + c')%nat].
Proof. by intros [ea ->]%shape_matrix [eb ->]%shape_matrix. Qed.

Lemma cumsum1_ok a r c : shape a = [r; c] → cumsum1 a = Ok (prefix_sums a).
Proof. by intros [ea ->]%shape_matrix. Qed.

Lemma atleast_2d_matrix a r c : shape a = [r; c] → atleast_2d a = a.
Proof. by intros [ea ->]%shape_matrix. Qed.

(** ** Entries *)

Lemma entry_tabulate r c g i j :
  (i < r)%nat → (j < c)%nat → entry (tabulate r c g) i j = g i j.
Proof.
  intros Hi Hj. unfold entry, tabulate.
  rewrite list_lookup_fmap, lookup_seq_lt by done. simpl.
  by rewrite list_lookup_fmap, lookup_seq_lt.
Qed.

Lemma tabulate_ext r c g h :
  (∀ i j, (i < r)%nat → (j < c)%nat → g i j = h i j) →
  tabulate r c g = tabulate r c h.
Proof.
  intros Hgh. unfold tabulate. f_equal.
  apply Forall_fmap_ext, Forall_seq. intros i Hi.
  apply Forall_fmap_ext, Forall_seq. intros j Hj.
  apply Hgh; lia.
Qed.

(** A well-formed matrix is the table of its entries. *)
Lemma tabulate_entry r c e :
  wf (Matrix r c e) = true → tabulate r c (entry (Matrix r c e)) = Matrix r c e.
Proof.
  simpl. intros [Hr Hc]%andb_prop.
  apply bool_decide_eq_true in Hr. rewrite forallb_forall in Hc.
  unfold tabulate. f_equal. apply list_eq. intros i.
  rewrite list_lookup_fmap.
  destruct (decide (i < r)%nat) as [Hi|Hi].
  - rewrite lookup_seq_lt by done. simpl.
    destruct (lookup_lt_is_Some_2 e i) as [row Hrow]; [lia|].
    rewrite Hrow. f_equal.
    assert (length row = c) as Hlen.
    { eapply bool_decide_eq_true, Hc, list_elem_of_In, list_elem_of_lookup_2, Hrow. }
    apply list_eq. intros j. rewrite list_lookup_fmap.
    destruct (decide (j < c)%nat) as [Hj|Hj].
    + rewrite lookup_seq_lt by done. simpl. unfold entry. rewrite Hrow. simpl.
      destruct (lookup_lt_is_Some_2 row j) as [y Hy]; [lia|]. by rewrite Hy.
    + rewrite lookup_seq_ge by lia. simpl. symmetry. apply lookup_ge_None. lia.
  - rewrite lookup_seq_ge by lia. simpl. symmetry. apply lookup_ge_None. lia.
Qed.

(** The table behind an element-wise operation on equal shapes. *)
Lemma ew2_same f a b r c :
  shape a = [r; c] → shape b = [r; c] →
  ew2 f a b = tabulate r c (λ i j, f (entry a i j) (entry b i j)).
Proof.
  intros [ea ->]%shape_matrix [eb ->]%shape_matrix. unfold ew2.
  rewrite !bdim_refl. apply tabulate_ext. intros i j Hi Hj.
  by rewrite !bidx_lt.
Qed.

Lemma ew2_scalar_l f q b r c :
  shape b = [r; c] → ew2 f (Scalar q) b = tabulate r c (λ i j, f q (entry b i j)).
Proof. by intros [eb ->]%shape_matrix. Qed.

Lemma ew2_scalar_r f a q r c :
  shape a = [r; c] → ew2 f a (Scalar q) = tabulate r c (λ i j, f (entry a i j) q).
Proof. by intros [ea ->]%shape_matrix. Qed.

End tensor_facts.

Create HintDb shape discriminated.
#[export] Hint Resolve shape_tabulate shape_mm shape_transpose shape_ew2
  shape_ew2_scalar_l shape_ew2_scalar_r shape_ew1 shape_sign shape_clamp
  shape_zeros shape_column0 shape_hcat : shape.

(** Discharge the next operation of a computation whose shapes agree. *)
Ltac shapes := eauto 40 with shape.
Ltac ok_op op :=
  lazymatch op with
  | matmul ?a ?b => erewrite (matmul_ok a b) by shapes
  | binop ?f (ew1 ?g (Scalar ?q)) ?b =>
      change (ew1 g (Scalar q)) with (Scalar (g q))
  | binop ?f (Scalar ?p) (Scalar ?q) => rewrite (binop_scalars f p q)
  | binop ?f (Scalar ?q) ?b => rewrite (binop_scalar_l f q b)
  | binop ?f ?a (Scalar ?q) => rewrite (binop_scalar_r f a q)
  | binop ?f ?a ?b => erewrite (binop_ok f a b) by shapes
  | shape2 ?t => erewrite (shape2_ok t) by shapes
  | first_column ?a => erewrite (first_column_ok a) by shapes
  | cat1 ?a ?b => erewrite (cat1_ok a b) by shapes
  | cumsum1 ?a => erewrite (cumsum1_ok a) by shapes
  | getitem ?d ?k => erewrite (getitem_Some d k) by eassumption
  end.
Ltac ok_step :=
  lazymatch goal with
  | |- context [clamp (Scalar ?q) ?lo ?hi] =>
      change (clamp (Scalar q) lo hi) with (Scalar (Qcclamp lo hi q))
  | |- (Ok ?a ≫= ?f) = _ => change (Ok a ≫= f) with (f a); cbv beta iota
  | |- ((?m ≫= ?f) ≫= ?g) = _ => rewrite (bind_assoc m f g)
  | |- (?op ≫= _) = _ => ok_op op
  | |- ?op = _ => ok_op op
  end.
Ltac ok_steps := unfold add, sub, mul, div; repeat ok_step.

(** ** Entries of element-wise operations *)

Section entry_facts.
Local Open Scope Qc_scope.
Local Open Scope tensor_scope.
Implicit Types (a b : tensor) (f : Qc → Qc → Qc) (q : Qc) (r c i j : nat).

Lemma entry_ew2 f a b r c i j :
  shape a = [r; c] → shape b = [r; c] → (i < r)%nat → (j < c)%nat →
  entry (ew2 f a b) i j = f (entry a i j) (entry b i j).
Proof.
  intros Ha Hb Hi Hj. by rewrite (ew2_same f a b r c), entry_tabulate.
Qed.

Lemma entry_ew2_scalar_l f q b r c i j :
  shape b = [r; c] → (i < r)%nat → (j < c)%nat →
  entry (ew2 f (Scalar q) b) i j = f q (entry b i j).
Proof.
  intros Hb Hi Hj. by rewrite (ew2_scalar_l f q b r c), entry_tabulate.
Qed.

Lemma entry_ew2_scalar_r f a q r c i j :
  shape a = [r; c] → (i < r)%nat → (j < c)%nat →
  entry (ew2 f a (Scalar q)) i j = f (entry a i j) q.
Proof.
  intros Ha Hi Hj. by rewrite (ew2_scalar_r f a q r c), entry_tabulate.
Qed.

(** The primal descent as the code groups it, and as it is usually written. *)
Lemma primal_descent_form (u G V : tensor) (τ : Qc) (n k : nat) :
  shape u = [n; k] → shape G = [n; k] → shape V = [n; k] →
  u ⊕ (Scalar (- τ) ⊙ G ⊖ Scalar τ ⊙ V) = u ⊖ Scalar τ ⊙ G ⊖ Scalar τ ⊙ V.
Proof.
  intros Hu HG HV.
  rewrite (ew2_same Qcplus u _ n k) by shapes.
  rewrite (ew2_same Qcminus (u ⊖ Scalar τ ⊙ G) _ n k) by shapes.
  apply tabulate_ext. intros i j Hi Hj.
  rewrite !(entry_ew2 Qcminus _ _ n k) by shapes.
  rewrite !(entry_ew2_scalar_l Qcmult _ _ n k) by shapes.
  ring.
Qed.

(** Subtracting a zero multiple leaves a well-formed matrix as it is. *)
Lemma sub_zero_multiple (u G : tensor) (n k : nat) :
  shape u = [n; k] → shape G = [n; k] → wf u = true →
  u ⊖ Scalar 0 ⊙ G = u.
Proof.
  intros Hu HG Hwf. destruct (shape_matrix _ _ _ Hu) as [e ->].
  rewrite (ew2_same Qcminus _ _ n k) by shapes.
  transitivity (tabulate n k (entry (Matrix n k e))); [|by apply tabulate_entry].
  apply tabulate_ext. intros i j Hi Hj.
  rewrite (entry_ew2_scalar_l Qcmult _ _ n k) by shapes.
  ring.
Qed.

(** ** Clamping *)

Lemma Qcclamp_bounds (lo hi q : Qc) : lo ≤ hi → lo ≤ Qcclamp lo hi q ≤ hi.
Proof.
  intros Hle. unfold Qcclamp. repeat case_decide.
  - split; [apply Qcle_refl | done].
  - split; [done | apply Qcle_refl].
  - split; by apply Qcnot_lt_le.
Qed.

Lemma Qcclamp_below (lo hi q : Qc) : q < lo → Qcclamp lo hi q = lo.
Proof. intros Hlt. unfold Qcclamp. by rewrite decide_True. Qed.

Lemma Qcclamp_above (lo hi q : Qc) : lo ≤ hi → hi < q → Qcclamp lo hi q = hi.
Proof.
  intros Hle Hlt. unfold Qcclamp. rewrite decide_False, decide_True; [done..|].
  apply Qcle_not_lt. etrans; [done|]. by apply Qclt_le_weak.
Qed.

Lemma Qcclamp_inside (lo hi q : Qc) : lo ≤ q ≤ hi → Qcclamp lo hi q = q.
Proof.
  intros [Hlo Hhi]. unfold Qcclamp.
  rewrite !decide_False; [done|by apply Qcle_not_lt..].
Qed.

Lemma half_le_2 : half ≤ 2.
Proof. by apply (bool_decide_unpack _). Qed.

Lemma entry_clamp (t : tensor) (lo hi : Qc) (r c i j : nat) :
  shape t = [r; c] → (i < r)%nat → (j < c)%nat →
  entry (clamp t lo hi) i j = Qcclamp lo hi (entry t i j).
Proof.
  intros [e ->]%shape_matrix Hi Hj. unfold clamp, ew1.
  by rewrite entry_tabulate.
Qed.

End entry_facts.

(** ** Construction *)

Lemma difference_operator_ok (n_atoms : nat) :
  difference_operator n_atoms
  = Ok (tabulate n_atoms (n_atoms - 1)
          (entry (ew2 Qcminus (eye_below n_atoms) (eye n_atoms)))).
Proof.
  unfold difference_operator, sub, eye_below, eye, binop. simpl.
  by rewrite !bcompat_refl, !bdim_refl.
Qed.

Lemma shape0_ok (A : tensor) (k m : nat) : shape A = [k; m] → shape0 A = Ok k.
Proof. by intros [e ->]%shape_matrix. Qed.

(** ** Calls of [init_vuz] *)

Section calls.
Context `{Collaborators}.






Lemma StepCondatVu_forward_raises self x lbda output_layer :
  StepCondatVu_forward self x lbda output_layer
  = check_output_layer (sc_base self) output_layer ≫= λ _, Raise unexpected_inv_A.
Proof. reflexivity. Qed.

Lemma StepSubGradTV_forward_raises self x lbda output_layer :
  StepSubGradTV_forward self x lbda output_layer
  = check_output_layer (sg_base self) output_layer ≫= λ _, Raise missing_lbda.
Proof. reflexivity. Qed.

Lemma raises_bind_Raise {A B} (m : result A) (e : exn) :
  raises (m ≫= λ _, Raise (A := B) e).
Proof. destruct m as [a|e']; [by exists e | by exists e']. Qed.

End calls.

(** * The claims *)

Section claims.
Context `{Collaborators}.
Local Open Scope Qc_scope.
Local Open Scope tensor_scope.

(** ** The Variable Initializer *)

(** C1.  For a mixing operator [A] of shape [(k+1, m)], the difference
    operator [D] of shape [(k+1, k)], observations [x] of shape [(n, m)] and
    a dual variable of shape [(n, k)] (zero when none is supplied),
    [init_vuz] returns [(v, u, z)] with [u = (x − λ·v·Ψᵗ)·A⁻¹],
    [Ψ = A⁻¹·D], [A⁻¹] the pseudo-inverse of [A], and
    [z = concat(u[:,0], u·D)] along the atom axis; the result is the same
    whether or not raw arrays are requested. *)
Theorem C1_init_vuz_closed_form (A D x : tensor) (lbda : Qc)
    (v0 : option tensor) (device : option string) (force_numpy : bool)
    (n m k : nat) :
  shape A = [S k; m] → shape D = [S k; k] → shape x = [n; m] →
  shape (pinverse A) = [m; S k] →
  (∀ v, v0 = Some v → shape v = [n; k]) →
  let v := default (zeros n k) v0 in
  let inv_A := pinverse A in
  let Psi := inv_A ∙ D in
  let u := (x ⊖ Scalar lbda ⊙ (v ∙ transpose Psi)) ∙ inv_A in
  let z := hcat (column0 u) (u ∙ D) in
  init_vuz A D x lbda v0 device force_numpy = Ok (v, u, z).
Proof.
  intros HA HD Hx Hinv Hv0 v inv_A Psi u z.
  assert (shape v = [n; k]) as Hv.
  { subst v. destruct v0 as [w|]; simpl; [by apply Hv0 | done]. }
  unfold init_vuz, check_tensor. ok_steps.
  assert (match v0 with
          | Some w => Ok w
          | None =>
              if decide (S k = 0%nat)
              then Raise (RuntimeError "Trying to create tensor with negative dimension -1")
              else Ok (zeros n (S k - 1))
          end = Ok v) as ->.
  { subst v. destruct v0; simpl; [done|]. by rewrite Nat.sub_0_r. }
  unfold v_to_u, check_tensor. ok_steps.
  destruct force_numpy; [|done].
  by repeat (erewrite atleast_2d_matrix by shapes).
Qed.

(** ** The call of the initializer from the forward passes *)


(** ** The layers *)

(** C6.  A layer of [ListaTV] with weights [Wu], [Wx] and a threshold (the
    layer's own, or [1/L] when thresholds are not learned) maps [u] to the
    row-wise cumulative sum of [z = ProxTV(u·Wu + x·Wx, λ·threshold)], where
    [ProxTV] is the nested network of that layer in per-layer mode and the
    shared one otherwise. *)
Theorem C6_ListaTV_layer (self : ListaTV) (x u : tensor) (lbda : Qc)
    (layer_id : nat) (layer_params : params) (Wx Wu : tensor)
    (net : ListaLASSO) (n m k : nat) :
  parameter_groups (tv_base self) !! layer_key layer_id = Some layer_params →
  layer_params !! "Wx" = Some Wx → layer_params !! "Wu" = Some Wu →
  shape u = [n; k] → shape x = [n; m] →
  shape Wu = [k; k] → shape Wx = [m; k] →
  (tv_learn_prox self = LEARN_PROX_PER_LAYER
     ∧ ∃ nets, tv_prox_tv self = ProxByLayer nets ∧ nets !! layer_id = Some net)
  ∨ (tv_learn_prox self ≠ LEARN_PROX_PER_LAYER
     ∧ tv_prox_tv self = SharedProx net) →
  let threshold := Py.get layer_params "threshold" (Scalar (1 / tv_l_ self)) in
  let z := ListaLASSO_call net (u ∙ Wu ⊕ x ∙ Wx) (Scalar lbda ⊙ threshold) in
  ∀ r c, shape z = [r; c] →
  ListaTV_layer self x lbda layer_id u = Ok (prefix_sums z)
  ∧ shape (prefix_sums z) = [r; c]
  ∧ ∀ i j, (i < r)%nat → (j < c)%nat →
      entry (prefix_sums z) i j = sum_upto (S j) (entry z i).
Proof.
  intros Hgroup HWx HWu Hu Hx HsWu HsWx Hprox threshold z r c Hz.
  assert (select_prox self layer_id = Ok (SharedProx net)) as Hsel.
  { unfold select_prox.
    destruct Hprox as [[-> (nets & -> & ->)]|[Hne ->]].
    - by rewrite bool_decide_eq_true_2.
    - by rewrite bool_decide_eq_false_2. }
  split; [|split].
  - unfold ListaTV_layer, check_tensor. ok_steps. rewrite Hsel. ok_steps.
    unfold call_prox. fold threshold. fold z. by ok_steps.
  - by destruct (shape_matrix _ _ _ Hz) as [e ->].
  - intros i j Hi Hj. destruct (shape_matrix _ _ _ Hz) as [e ->].
    unfold prefix_sums. by rewrite entry_tabulate.
Qed.

(** C7.  A layer of [CoupledCondatVu] with coupling matrix [W] and
    threshold (1 when thresholds are not learned) computes the primal
    descent, the dual ascent and the relaxed update of the Condat-Vu
    iteration, and stores the new [u] and [v] as [u_old] and [v_old]; the
    next layer starts from the state this one stores. *)
Theorem C7_CoupledCondatVu_layer (self : CoupledCondatVu) (x : tensor)
    (lbda : Qc) (layer_id : nat) (layer_params : params) (W : tensor)
    (st : cv_state) (n m k d : nat) :
  parameter_groups (cc_base self) !! layer_key layer_id = Some layer_params →
  layer_params !! "W_coupled" = Some W →
  shape (cv_u_old st) = [n; k] → shape (cv_v_old st) = [n; d] →
  shape x = [n; m] → shape (cc_A_ self) = [k; m] → shape W = [k; d] →
  (∀ a b c, shape a = [n; d] → shape (pseudo_soft_th_tensor a b c) = [n; d]) →
  let u_old := cv_u_old st in
  let v_old := cv_v_old st in
  let A := cc_A_ self in
  let τ := Scalar (cc_tau self) in
  let σ := Scalar (cc_sigma self) in
  let ρ := Scalar (cc_rho self) in
  let threshold := Py.get layer_params "threshold" (Scalar 1) in
  let u_new :=
    u_old ⊖ τ ⊙ ((u_old ∙ A ⊖ x) ∙ transpose A) ⊖ τ ⊙ (v_old ∙ transpose W) in
  let v_ := v_old ⊕ σ ⊙ ((Scalar 2 ⊙ u_new ⊖ u_old) ∙ W) in
  let v_new :=
    v_ ⊖ σ ⊙ pseudo_soft_th_tensor (v_ ⊘ σ) (Scalar lbda ⊙ threshold)
               (Scalar 1 ⊘ σ) in
  let u := ρ ⊙ u_new ⊕ (Scalar 1 ⊖ ρ) ⊙ u_old in
  let v := ρ ⊙ v_new ⊕ (Scalar 1 ⊖ ρ) ⊙ v_old in
  CoupledCondatVu_layer self x lbda layer_id st
  = Ok {| cv_u := u; cv_v := v; cv_u_old := u; cv_v_old := v |}
  ∧ ∀ st0,
      for_range (S layer_id) (CoupledCondatVu_layer self x lbda) st0
      = for_range layer_id (CoupledCondatVu_layer self x lbda) st0
          ≫= CoupledCondatVu_layer self x lbda layer_id.
Proof.
  intros Hgroup HW Hu Hv Hx HA HsW Hpst u_old v_old A τ σ ρ threshold
    u_new v_ v_new u v.
  split; [|intros st0; apply for_range_S].
  unfold CoupledCondatVu_layer, check_tensor. cbn [ew1]. ok_steps.
  by rewrite (primal_descent_form (cv_u_old st) _ _ (cc_tau self) n k) by shapes.
Qed.

(** C9.  A layer of [StepSubGradTV] with step size [s] maps [u] to
    [u − s·((u·A − x)·Aᵗ + λ·sign(u·D)·Dᵗ)]; the step size is the only
    parameter of a layer and starts at [1e-10]; with a step size of zero a
    layer, and so any number of layers, returns [u] as it is. *)
Theorem C9_StepSubGradTV_layer (self : StepSubGradTV) (x u : tensor) (lbda : Qc)
    (n m k d : nat) :
  shape u = [n; k] → shape x = [n; m] →
  shape (sg_A_ self) = [k; m] → shape (sg_D_ self) = [k; d] →
  let A := sg_A_ self in
  let D := sg_D_ self in
  let grad :=
    (u ∙ A ⊖ x) ∙ transpose A ⊕ Scalar lbda ⊙ (sign (u ∙ D) ∙ transpose D) in
  let has_step_size layer_id s :=
    ∃ layer_params,
      parameter_groups (sg_base self) !! layer_key layer_id = Some layer_params
      ∧ layer_params !! "step_size" = Some (Scalar s) in
  (∀ layer_id s, has_step_size layer_id s →
     StepSubGradTV_layer self x lbda layer_id u = Ok (u ⊖ Scalar s ⊙ grad))
  ∧ (∀ layer_id, has_step_size layer_id 0 → wf u = true →
       StepSubGradTV_layer self x lbda layer_id u = Ok u)
  ∧ (∀ output_layer,
       (∀ layer_id, (layer_id < output_layer)%nat → has_step_size layer_id 0) →
       wf u = true →
       for_range output_layer (StepSubGradTV_layer self x lbda) u = Ok u)
  ∧ (∀ layer_id,
       StepSubGradTV_get_initial_layer_parameters layer_id
       = {[ "step_size" := Scalar (Q2Qc (1 # 10000000000)) ]}).
Proof.
  intros Hu Hx HA HD A D grad has_step_size.
  assert (∀ layer_id s, has_step_size layer_id s →
    StepSubGradTV_layer self x lbda layer_id u = Ok (u ⊖ Scalar s ⊙ grad))
    as Hlayer.
  { intros layer_id s (layer_params & Hgroup & Hs).
    unfold StepSubGradTV_layer. by ok_steps. }
  assert (∀ layer_id, has_step_size layer_id 0 → wf u = true →
    StepSubGradTV_layer self x lbda layer_id u = Ok u) as Hzero.
  { intros layer_id Hs Hwf. rewrite (Hlayer layer_id 0 Hs). f_equal.
    apply (sub_zero_multiple u grad n k); [done| |done]. subst grad A D. shapes. }
  split; [done|]. split; [done|]. split; [|done].
  intros output_layer Hall Hwf. apply for_range_fixed. auto.
Qed.

(** C8.  The dual step size of [StepCondatVu] starts at [0.5].  Whatever
    value [q] a layer stores, the update of that layer uses
    [σ = clamp(q, 0.5, 2)], which lies in [[0.5, 2]] and is the nearest bound
    when [q] lies outside (2 for [q = 10]); the primal step size is computed
    from this [σ]. *)
Theorem C8_StepCondatVu_sigma_clamped :
  (∀ layer_id,
     StepCondatVu_get_initial_layer_parameters layer_id
     = {[ "sigma" := Scalar half ]})
  ∧ (∀ q, clamp (Scalar q) half 2 = Scalar (Qcclamp half 2 q)
          ∧ half ≤ Qcclamp half 2 q ≤ 2
          ∧ (q < half → Qcclamp half 2 q = half)
          ∧ (2 < q → Qcclamp half 2 q = 2)
          ∧ (half ≤ q ≤ 2 → Qcclamp half 2 q = q))%Qc
  ∧ Qcclamp half 2 (Q2Qc 10) = 2%Qc
  ∧ (∀ t r c i j, shape t = [r; c] → (i < r)%nat → (j < c)%nat →
       half ≤ entry (clamp t half 2) i j ≤ 2)%Qc
  ∧ (∀ (self : StepCondatVu) (x : tensor) (lbda : Qc) (layer_id : nat)
       (layer_params : params) (q : Qc) (st : cv_state) (n m k d : nat),
       parameter_groups (sc_base self) !! layer_key layer_id = Some layer_params →
       layer_params !! "sigma" = Some (Scalar q) →
       shape (cv_u_old st) = [n; k] → shape (cv_v_old st) = [n; d] →
       shape x = [n; m] → shape (sc_A_ self) = [k; m] →
       shape (sc_D_ self) = [k; d] →
       (∀ a b c, shape a = [n; d] → shape (pseudo_soft_th_tensor a b c) = [n; d]) →
       let u_old := cv_u_old st in
       let v_old := cv_v_old st in
       let A := sc_A_ self in
       let D := sc_D_ self in
       let σ := Scalar (Qcclamp half 2 q) in
       let τ := Scalar (1 / (sc_l_A self / 2 + Qcclamp half 2 q * sc_l_D self ^ 2)) in
       let ρ := Scalar (sc_rho self) in
       let u_new :=
         u_old ⊖ τ ⊙ ((u_old ∙ A ⊖ x) ∙ transpose A) ⊖ τ ⊙ (v_old ∙ transpose D) in
       let v_ := v_old ⊕ σ ⊙ ((Scalar 2 ⊙ u_new ⊖ u_old) ∙ D) in
       let v_new :=
         v_ ⊖ σ ⊙ pseudo_soft_th_tensor (v_ ⊘ σ) (Scalar lbda) (Scalar 1 ⊘ σ) in
       let u := ρ ⊙ u_new ⊕ (Scalar 1 ⊖ ρ) ⊙ u_old in
       let v := ρ ⊙ v_new ⊕ (Scalar 1 ⊖ ρ) ⊙ v_old in
       StepCondatVu_layer self x lbda layer_id st
       = Ok {| cv_u := u; cv_v := v; cv_u_old := u; cv_v_old := v |}).
Proof.
  split; [done|].
  split.
  { intros q. split; [done|]. split; [apply Qcclamp_bounds, half_le_2|].
    split; [apply Qcclamp_below|].
    split; [apply Qcclamp_above, half_le_2 | apply Qcclamp_inside]. }
  split; [by apply Qcclamp_above; [apply half_le_2 | apply (bool_decide_unpack _)]|].
  split.
  { intros t r c i j Ht Hi Hj. rewrite (entry_clamp t _ _ r c) by done.
    apply Qcclamp_bounds, half_le_2. }
  intros self x lbda layer_id layer_params q st n m k d Hgroup Hsigma Hu Hv Hx
    HA HD Hpst u_old v_old A D σ τ ρ u_new v_ v_new u v.
  unfold StepCondatVu_layer. ok_steps.
  by rewrite (primal_descent_form (cv_u_old st) _ _
                (1 / (sc_l_A self / 2 + Qcclamp half 2 q * sc_l_D self ^ 2)) n k)
    by shapes.
Qed.

(** ** Construction *)

(** Constructing [StepCondatVu] or [StepSubGradTV] for a 2-d mixing
    operator prints a notice when [learn_th] is requested and hands
    [learn_th = False] to the base class in any case: the network built is
    the one built without the request, its flag is false once the base class
    stores what it is given, its layers are created without a threshold, and
    a threshold put into a layer's parameters changes nothing in what the
    layer computes. *)
Lemma learn_th_is_overridden :
  (∀ A k m n_layers learn_th max_iter use_moreau net_solver_type
     initial_parameters name verbose device,
     shape A = [k; m] →
     ∃ attributes : ListaBase → StepCondatVu,
       (∀ base, sc_base (attributes base) = base)
       ∧ StepCondatVu_init A n_layers learn_th max_iter use_moreau
           net_solver_type initial_parameters name verbose device
         = ((if learn_th
             then ["In StepIstaLASSO learn_th can't be enable, ignore it."]
             else []),
            attributes <$>
              ListaBase_init (λ _, StepCondatVu_get_initial_layer_parameters)
                {| arg_n_layers := n_layers; arg_learn_th := false;
                   arg_max_iter := max_iter;
                   arg_net_solver_type := net_solver_type;
                   arg_initial_parameters := initial_parameters;
                   arg_name := name; arg_verbose := verbose;
                   arg_device := device |}))
  ∧ (∀ A k m n_layers learn_th use_moreau max_iter net_solver_type
       initial_parameters name verbose device,
       shape A = [k; m] →
       ∃ attributes : ListaBase → StepSubGradTV,
         (∀ base, sg_base (attributes base) = base)
         ∧ StepSubGradTV_init A n_layers learn_th use_moreau max_iter
             net_solver_type initial_parameters name verbose device
           = ((if learn_th
               then ["In StepSubGradTV learn_th can't be enable, ignore it."]
               else []),
              attributes <$>
                ListaBase_init (λ _, StepSubGradTV_get_initial_layer_parameters)
                  {| arg_n_layers := n_layers; arg_learn_th := false;
                     arg_max_iter := max_iter;
                     arg_net_solver_type := net_solver_type;
                     arg_initial_parameters := initial_parameters;
                     arg_name := name; arg_verbose := verbose;
                     arg_device := device |}))
  ∧ (∀ A n_layers learn_th max_iter use_moreau net_solver_type
       initial_parameters name verbose device,
       (StepCondatVu_init A n_layers learn_th max_iter use_moreau
          net_solver_type initial_parameters name verbose device).2
       = (StepCondatVu_init A n_layers false max_iter use_moreau
            net_solver_type initial_parameters name verbose device).2
       ∧ (StepSubGradTV_init A n_layers learn_th use_moreau max_iter
            net_solver_type initial_parameters name verbose device).2
         = (StepSubGradTV_init A n_layers false use_moreau max_iter
              net_solver_type initial_parameters name verbose device).2)
  ∧ ((∀ hook a base, ListaBase_init hook a = Ok base →
        learn_th base = arg_learn_th a) →
     ∀ A n_layers max_iter use_moreau net_solver_type initial_parameters name
       verbose device,
       (∀ net,
          (StepCondatVu_init A n_layers true max_iter use_moreau
             net_solver_type initial_parameters name verbose device).2 = Ok net →
          learn_th (sc_base net) = false)
       ∧ (∀ net,
            (StepSubGradTV_init A n_layers true use_moreau max_iter
               net_solver_type initial_parameters name verbose device).2 = Ok net →
            learn_th (sg_base net) = false))
  ∧ (∀ layer_id,
       StepCondatVu_get_initial_layer_parameters layer_id !! "threshold" = None
       ∧ StepSubGradTV_get_initial_layer_parameters layer_id !! "threshold" = None)
  ∧ (∀ (self : StepCondatVu) x lbda layer_id st layer_params threshold,
       parameter_groups (sc_base self) !! layer_key layer_id = Some layer_params →
       StepCondatVu_layer
         (sc_with_groups self
            (<[layer_key layer_id := <["threshold" := threshold]> layer_params]>
               (parameter_groups (sc_base self))))
         x lbda layer_id st
       = StepCondatVu_layer self x lbda layer_id st)
  ∧ (∀ (self : StepSubGradTV) x lbda layer_id u layer_params threshold,
       parameter_groups (sg_base self) !! layer_key layer_id = Some layer_params →
       StepSubGradTV_layer
         (sg_with_groups self
            (<[layer_key layer_id := <["threshold" := threshold]> layer_params]>
               (parameter_groups (sg_base self))))
         x lbda layer_id u
       = StepSubGradTV_layer self x lbda layer_id u).
Proof.
  split.
  { intros A k m ????????? HA. eexists. split; [|
      unfold StepCondatVu_init;
      rewrite (shape0_ok A k m HA), bind_Ok, difference_operator_ok;
      unfold check_tensor; rewrite !bind_Ok; reflexivity].
    done. }
  split.
  { intros A k m ????????? HA. eexists. split; [|
      unfold StepSubGradTV_init;
      rewrite (shape0_ok A k m HA), bind_Ok, difference_operator_ok;
      unfold check_tensor; rewrite !bind_Ok; reflexivity].
    done. }
  split.
  { intros A ?????????. unfold StepCondatVu_init, StepSubGradTV_init.
    split; by destruct (shape0 A ≫= _). }
  split.
  { intros Hstore A ????????.
    split; intros net; (destruct A as [q|r c e]; [done|]).
    - unfold StepCondatVu_init. cbn [shape0].
      rewrite bind_Ok, difference_operator_ok. unfold check_tensor.
      rewrite !bind_Ok. cbn [snd].
      destruct (ListaBase_init _ _) as [base|] eqn:Hbase; [|done].
      intros [= <-]. cbn [sc_base]. by rewrite (Hstore _ _ _ Hbase).
    - unfold StepSubGradTV_init. cbn [shape0].
      rewrite bind_Ok, difference_operator_ok. unfold check_tensor.
      rewrite !bind_Ok. cbn [snd].
      destruct (ListaBase_init _ _) as [base|] eqn:Hbase; [|done].
      intros [= <-]. cbn [sg_base]. by rewrite (Hstore _ _ _ Hbase). }
  split.
  { intros layer_id. split; by apply lookup_singleton_ne. }
  split.
  - intros self x lbda layer_id st layer_params threshold Hgroup.
    unfold StepCondatVu_layer.
    cbn [sc_with_groups sc_base base_with_groups parameter_groups sc_A_ sc_D_
         sc_l_A sc_l_D sc_rho].
    erewrite (getitem_Some (<[_ := _]> _)) by apply lookup_insert_eq.
    rewrite (getitem_Some _ _ _ Hgroup), !bind_Ok.
    unfold getitem. by rewrite lookup_insert_ne.
  - intros self x lbda layer_id u layer_params threshold Hgroup.
    unfold StepSubGradTV_layer.
    cbn [sg_with_groups sg_base base_with_groups parameter_groups sg_A_ sg_D_].
    erewrite (getitem_Some (<[_ := _]> _)) by apply lookup_insert_eq.
    rewrite (getitem_Some _ _ _ Hgroup), !bind_Ok.
    unfold getitem. by rewrite lookup_insert_ne.
Qed.

(** C4 (amended).  With [learn_prox = 'none'], [get_global_parameters]
    returns: it stores one shared nested network and registers nothing.  It
    raises the unimplemented-mode failure exactly for the values of
    [learn_prox] outside [['none', 'global', 'per-layer']], with a message
    that lists these three. *)
Theorem C4_learn_prox_modes (self : ListaTV) (initial_parameters : groups) :
  (tv_learn_prox self = LEARN_PROX_FALSE →
     ListaTV_get_global_parameters self initial_parameters
     = Ok (tv_with self (tv_base self)
             (SharedProx
                {| lasso_A := tv_I_k self;
                   lasso_n_layers := tv_n_inner_layers self;
                   lasso_learn_th := true;
                   lasso_initial_parameters :=
                     Some (unravel_group_params
                             (Py.get initial_parameters "prox" ∅));
                   lasso_name := "Prox-TV-Lista";
                   lasso_device := device (tv_base self) |})))
  ∧ (tv_learn_prox self ∉ ALL_LEARN_PROX →
       ListaTV_get_global_parameters self initial_parameters
       = Raise (NotImplementedError
                  ("Parameter learn_prox should be in ['none', 'global', 'per-layer']. Got "
                     +:+ quote (tv_learn_prox self) +:+ ".")))
  ∧ (unimplemented (ListaTV_get_global_parameters self initial_parameters)
     ↔ tv_learn_prox self ∉ ALL_LEARN_PROX).
Proof.
  assert (tv_learn_prox self ∉ ALL_LEARN_PROX →
          ListaTV_get_global_parameters self initial_parameters
          = Raise (NotImplementedError
                     ("Parameter learn_prox should be in ['none', 'global', 'per-layer']. Got "
                        +:+ quote (tv_learn_prox self) +:+ "."))) as Hout.
  { unfold ALL_LEARN_PROX. rewrite !not_elem_of_cons. intros (Hn & Hg & Hp & _).
    unfold ListaTV_get_global_parameters.
    rewrite (bool_decide_eq_false_2
               (tv_learn_prox self ∈ [LEARN_PROX_GLOBAL; LEARN_PROX_FALSE])).
    2:{ rewrite !not_elem_of_cons. split_and!; [done..|apply not_elem_of_nil]. }
    by rewrite (bool_decide_eq_false_2 (tv_learn_prox self = LEARN_PROX_PER_LAYER)). }
  split; [|split; [done|split]].
  - intros Hnone. unfold ListaTV_get_global_parameters.
    cbn [tv_with tv_learn_prox]. by rewrite Hnone.
  - intros [msg Hraise] Hin. revert Hraise.
    unfold ListaTV_get_global_parameters.
    destruct (bool_decide_reflect
                (tv_learn_prox self ∈ [LEARN_PROX_GLOBAL; LEARN_PROX_FALSE]))
      as [Hshared|Hshared].
    { cbn [tv_with tv_learn_prox]. by case_bool_decide. }
    destruct (bool_decide_reflect (tv_learn_prox self = LEARN_PROX_PER_LAYER))
      as [Hper|Hper].
    2:{ intros _. revert Hin Hshared. unfold ALL_LEARN_PROX.
        rewrite !not_elem_of_cons, !elem_of_cons, elem_of_nil. tauto. }
    intros (i & self' & _ & Hbody)%for_range_Raise_inv. revert Hbody.
    unfold _initialize_prox_tv_per_layer, prox_contains, prox_setitem, getitem.
    destruct (tv_prox_tv self') as [|net|nets]; simpl; [done..|].
    case_bool_decide; [done|].
    by destruct (parameter_groups (tv_base self') !! layer_key i).
  - intros Hout'. eexists. by apply Hout.
Qed.

End claims.

(** * The claims on the two-atom setting *)

Section sample.
Import Sample.
Local Open Scope Qc_scope.
Local Open Scope tensor_scope.
Local Existing Instance collaborators.

(** Soft thresholding keeps the shape of what it thresholds. *)
Lemma soft_th_shape (n d : nat) (a b c : tensor) :
  shape a = [n; d] → shape (pseudo_soft_th_tensor a b c) = [n; d].
Proof. apply shape_ew1. Qed.

(** The base constructor of this setting stores the flag it is given. *)
Lemma base_init_stores_learn_th hook a base :
  ListaBase_init hook a = Ok base → learn_th base = arg_learn_th a.
Proof. by intros [= <-]. Qed.

(** C1 at [A = I2], [D = D2], one observation and a supplied dual variable. *)
Lemma C1_init_vuz_closed_form_witness :
  shape I2 = [2; 2]%nat ∧ shape D2 = [2; 1]%nat ∧ shape x0 = [1; 2]%nat
  ∧ shape (pinverse I2) = [2; 2]%nat ∧ shape v0 = [1; 1]%nat
  ∧ ∃ u z, init_vuz I2 D2 x0 (Q2Qc (1 # 10)) (Some v0) None false = Ok (v0, u, z).
Proof.
  do 5 (split; [reflexivity|]). eexists _, _.
  apply (C1_init_vuz_closed_form I2 D2 x0 (Q2Qc (1 # 10)) (Some v0) None false 1 2 1);
    [reflexivity..|]. by intros v [= <-].
Defined.

(** C3 on this setting: the constructor of [CoupledCondatVu] sets [σ = 0.5]
    and [τ = 1/(‖A‖²/2 + σ·(‖D‖²)²)], which is not [1/(‖A‖²/2 + σ·‖D‖²)]. *)
Theorem C3_tau_squares_the_squared_norm :
  ∃ net,
    CoupledCondatVu_init I2 1 true 100 false "recursive" None
      "learned-Condat-Vu-coupled" 0 None = Ok net
    ∧ cc_sigma net = half
    ∧ cc_l_A net = norm2 I2 ^ 2 ∧ cc_l_D net = norm2 D2 ^ 2
    ∧ cc_tau net = 1 / (norm2 I2 ^ 2 / 2 + half * (norm2 D2 ^ 2) ^ 2)
    ∧ cc_tau net ≠ 1 / (norm2 I2 ^ 2 / 2 + half * norm2 D2 ^ 2).
Proof.
  eexists. split; [reflexivity|]. cbn [cc_sigma cc_l_A cc_l_D cc_tau].
  split; [done|]. split; [done|]. split.
  - apply Qc_is_canon. by vm_compute.
  - split; [apply Qc_is_canon; by vm_compute|].
    intros Heq%(f_equal this). by vm_compute in Heq.
Qed.

(** C4 as stated fails: with [learn_prox = 'none'] no unimplemented-mode
    failure is raised. *)
Lemma C4_none_is_accepted :
  ¬ unimplemented (ListaTV_get_global_parameters (lista_tv "none" NoProx ∅) ∅).
Proof. intros [msg Hraise]. by vm_compute in Hraise. Qed.

(** C4 (amended) at [learn_prox = 'none'] and at an unknown mode. *)
Lemma C4_learn_prox_modes_witness :
  ListaTV_get_global_parameters (lista_tv "none" NoProx ∅) ∅
  = Ok (lista_tv "none" (SharedProx prox_net) ∅)
  ∧ ListaTV_get_global_parameters (lista_tv "sometimes" NoProx ∅) ∅
    = Raise (NotImplementedError
               "Parameter learn_prox should be in ['none', 'global', 'per-layer']. Got 'sometimes'.").
Proof.
  split.
  - etrans.
    + apply (proj1 (C4_learn_prox_modes (lista_tv "none" NoProx ∅) ∅)).
      reflexivity.
    + reflexivity.
  - etrans.
    + apply (proj1 (proj2 (C4_learn_prox_modes (lista_tv "sometimes" NoProx ∅) ∅))).
      by apply (bool_decide_unpack _).
    + reflexivity.
Defined.

(** C5 on this setting: with [output_layer = 0] the forward pass of a
    network that was constructed without error raises the [TypeError] of
    the call of [init_vuz]; it does not return the [u] that [init_vuz]
    computes for the same operators and observations. *)
Theorem C5_zero_layers_raises :
  ∃ net v u z,
    (StepSubGradTV_init I2 1 true false 100 "recursive" None
       "learned-TV Sub Gradient" 0 None).2 = Ok net
    ∧ init_vuz (sg_A net) (sg_D net) x0 (Q2Qc (1 # 10)) None None false
      = Ok (v, u, z)
    ∧ StepSubGradTV_forward net x0 (Q2Qc (1 # 10)) (Some 0%nat)
      = Raise missing_lbda
    ∧ ListaTV_forward (lista_tv "global" (SharedProx prox_net) tv_groups)
        x0 (Q2Qc (1 # 10)) (Some 0%nat)
      = Raise unexpected_inv_A.
Proof.
  eexists _, _, _, _. split; [reflexivity|]. split; [by vm_compute|].
  split; reflexivity.
Qed.

(** C6 at a network in global mode with identity weights. *)
Lemma C6_ListaTV_layer_witness :
  ∃ z, ListaTV_layer (lista_tv "global" (SharedProx prox_net) tv_groups)
         x0 (Q2Qc (1 # 10)) 0 x0 = Ok (prefix_sums z)
       ∧ shape z = [1; 2]%nat.
Proof.
  eexists. split.
  - eapply (C6_ListaTV_layer (lista_tv "global" (SharedProx prox_net) tv_groups)
              x0 x0 (Q2Qc (1 # 10)) 0 _ I2 I2 prox_net 1 2 2);
      [reflexivity..| |reflexivity].
    right. split; [by apply (bool_decide_unpack _) | reflexivity].
  - reflexivity.
Defined.

(** C7 at a layer with coupling matrix [D2] and threshold 1. *)
Lemma C7_CoupledCondatVu_layer_witness :
  ∃ st, CoupledCondatVu_layer (coupled coupled_groups) x0 (Q2Qc (1 # 10)) 0 state0
        = Ok st.
Proof.
  eexists.
  refine (proj1 (C7_CoupledCondatVu_layer (coupled coupled_groups) x0
                   (Q2Qc (1 # 10)) 0 _ D2 state0 1 2 2 1 _ _ _ _ _ _ _ _));
    [reflexivity..|].
  apply soft_th_shape.
Defined.

(** C8 at a layer that stores [sigma = 10]. *)
Lemma C8_StepCondatVu_sigma_clamped_witness :
  step_groups !! "layer-0" ≫= (.!! "sigma") = Some (Scalar (Q2Qc 10))
  ∧ ∃ st, StepCondatVu_layer (step_condat step_groups) x0 (Q2Qc (1 # 10)) 0 state0
          = Ok st.
Proof.
  split; [reflexivity|]. eexists.
  refine (proj2 (proj2 (proj2 (proj2 C8_StepCondatVu_sigma_clamped)))
            (step_condat step_groups) x0 (Q2Qc (1 # 10)) 0%nat _ (Q2Qc 10)
            state0 1%nat 2%nat 2%nat 1%nat _ _ _ _ _ _ _ _); [reflexivity..|].
  apply soft_th_shape.
Defined.

(** C9 at a layer whose step size is zero. *)
Lemma C9_StepSubGradTV_layer_witness :
  wf x0 = true
  ∧ StepSubGradTV_layer (sub_grad zero_step_groups) x0 (Q2Qc (1 # 10)) 0 x0 = Ok x0
  ∧ for_range 1 (StepSubGradTV_layer (sub_grad zero_step_groups) x0 (Q2Qc (1 # 10))) x0
    = Ok x0.
Proof.
  split; [reflexivity|].
  pose proof (C9_StepSubGradTV_layer (sub_grad zero_step_groups) x0 x0
                (Q2Qc (1 # 10)) 1 2 2 1 eq_refl eq_refl eq_refl eq_refl)
    as (_ & Hzero & Hloop & _).
  split.
  - apply Hzero; [|reflexivity]. eexists. split; reflexivity.
  - apply Hloop; [|reflexivity]. intros layer_id Hlt.
    assert (layer_id = 0%nat) as -> by lia. eexists. split; reflexivity.
Defined.

(** C10 on this setting: constructing [StepCondatVu] and [StepSubGradTV]
    with [learn_th=True] does not fail; the notice is printed, the flag
    stored is [False] and the layer is created without a threshold.  But
    the evaluation that follows does not continue normally: on the networks
    so built [forward] returns for no input, and raises the [TypeError] of
    its call of [init_vuz] at every valid layer: the default one, layer 0
    and layer 1. *)
Theorem C10_forward_raises_after_override :
  ∃ net_cv net_sg,
    StepCondatVu_init I2 1 true 100 false "recursive" None
      "learned-Condat-Vu-step" 0 None
    = (["In StepIstaLASSO learn_th can't be enable, ignore it."], Ok net_cv)
    ∧ StepSubGradTV_init I2 1 true false 100 "recursive" None
        "learned-TV Sub Gradient" 0 None
      = (["In StepSubGradTV learn_th can't be enable, ignore it."], Ok net_sg)
    ∧ learn_th (sc_base net_cv) = false ∧ learn_th (sg_base net_sg) = false
    ∧ parameter_groups (sc_base net_cv) !! "layer-0"
      = Some {[ "sigma" := Scalar half ]}
    ∧ parameter_groups (sg_base net_sg) !! "layer-0"
      = Some {[ "step_size" := Scalar init_step_size ]}
    ∧ (∀ x lbda output_layer,
         raises (StepCondatVu_forward net_cv x lbda output_layer)
         ∧ raises (StepSubGradTV_forward net_sg x lbda output_layer))
    ∧ (∀ x lbda,
         StepCondatVu_forward net_cv x lbda None = Raise unexpected_inv_A
         ∧ StepCondatVu_forward net_cv x lbda (Some 0%nat)
           = Raise unexpected_inv_A
         ∧ StepCondatVu_forward net_cv x lbda (Some 1%nat)
           = Raise unexpected_inv_A
         ∧ StepSubGradTV_forward net_sg x lbda None = Raise missing_lbda
         ∧ StepSubGradTV_forward net_sg x lbda (Some 0%nat)
           = Raise missing_lbda
         ∧ StepSubGradTV_forward net_sg x lbda (Some 1%nat)
           = Raise missing_lbda).
Proof.
  eexists _, _. split; [reflexivity|]. split; [reflexivity|].
  destruct (proj1 (proj2 (proj2 (proj2 learn_th_is_overridden)))
              base_init_stores_learn_th
              I2 1%nat 100%nat false "recursive" None
              "learned-Condat-Vu-step" 0%nat None) as [Hcv _].
  destruct (proj1 (proj2 (proj2 (proj2 learn_th_is_overridden)))
              base_init_stores_learn_th
              I2 1%nat 100%nat false "recursive" None
              "learned-TV Sub Gradient" 0%nat None) as [_ Hsg].
  split; [by apply Hcv|]. split; [by apply Hsg|].
  split; [reflexivity|]. split; [reflexivity|]. split.
  - intros x lbda output_layer. split.
    + rewrite StepCondatVu_forward_raises. apply raises_bind_Raise.
    + rewrite StepSubGradTV_forward_raises. apply raises_bind_Raise.
  - intros x lbda.
    rewrite !StepCondatVu_forward_raises, !StepSubGradTV_forward_raises.
    repeat split; reflexivity.
Qed.

End sample.

(** * Further properties of the code *)

(** ** Finite sums *)

Section sums.
Local Open Scope Qc_scope.
Implicit Types (f g : nat → Qc) (n m : nat).

Lemma foldr_Qcplus_acc (l : list Qc) (a : Qc) :
  foldr Qcplus a l = foldr Qcplus 0 l + a.
Proof.
  induction l as [|x l IH]; simpl; [ring|]. rewrite IH. ring.
Qed.

Lemma sum_upto_0 f : sum_upto 0 f = 0.
Proof. reflexivity. Qed.

Lemma sum_upto_S n f : sum_upto (S n) f = sum_upto n f + f n.
Proof.
  unfold sum_upto. rewrite seq_S, fmap_app, foldr_app. simpl.
  rewrite foldr_Qcplus_acc. ring.
Qed.

Lemma sum_upto_ext n f g :
  (∀ l, (l < n)%nat → f l = g l) → sum_upto n f = sum_upto n g.
Proof.
  induction n as [|n IH]; intros Hfg; [done|].
  rewrite !sum_upto_S, IH, Hfg; [done|lia|]. intros l Hl. apply Hfg. lia.
Qed.

Lemma sum_upto_zero n : sum_upto n (λ _, 0) = 0.
Proof. induction n as [|n IH]; [done|]. rewrite sum_upto_S, IH. ring. Qed.

Lemma sum_upto_plus n f g :
  sum_upto n (λ l, f l + g l) = sum_upto n f + sum_upto n g.
Proof. induction n as [|n IH]; [done|]. rewrite !sum_upto_S, IH. ring. Qed.

Lemma sum_upto_minus n f g :
  sum_upto n (λ l, f l - g l) = sum_upto n f - sum_upto n g.
Proof. induction n as [|n IH]; [done|]. rewrite !sum_upto_S, IH. ring. Qed.

Lemma sum_upto_scale_l n (c : Qc) f :
  sum_upto n (λ l, c * f l) = c * sum_upto n f.
Proof.
  induction n as [|n IH]; [unfold sum_upto; simpl; ring|].
  rewrite !sum_upto_S, IH. ring.
Qed.

Lemma sum_upto_scale_r n (c : Qc) f :
  sum_upto n (λ l, f l * c) = sum_upto n f * c.
Proof.
  induction n as [|n IH]; [unfold sum_upto; simpl; ring|].
  rewrite !sum_upto_S, IH. ring.
Qed.

(** A sum against an indicator picks one term. *)
Lemma sum_upto_pick n f (j : nat) :
  (j < n)%nat →
  sum_upto n (λ l, f l * (if decide (l = j) then 1 else 0)) = f j.
Proof.
  induction n as [|n IH]; intros Hj; [lia|]. rewrite sum_upto_S.
  destruct (decide (j = n)) as [->|Hne].
  - rewrite decide_True by done.
    rewrite (sum_upto_ext n _ (λ _, 0)), sum_upto_zero; [ring|].
    intros l Hl. rewrite decide_False by lia. ring.
  - rewrite IH by lia. rewrite decide_False by done. ring.
Qed.

Lemma sum_upto_swap n m (h : nat → nat → Qc) :
  sum_upto n (λ i, sum_upto m (λ j, h i j))
  = sum_upto m (λ j, sum_upto n (λ i, h i j)).
Proof.
  induction n as [|n IH].
  - by rewrite sum_upto_0, sum_upto_zero.
  - rewrite sum_upto_S, IH, <- sum_upto_plus. apply sum_upto_ext.
    intros j _. by rewrite sum_upto_S.
Qed.

Lemma sum_upto_nonneg n f :
  (∀ l, (l < n)%nat → 0 ≤ f l) → 0 ≤ sum_upto n f.
Proof.
  induction n as [|n IH]; intros Hf; [done|]. rewrite sum_upto_S.
  apply Qcplus_nonneg_nonneg; [apply IH; intros; apply Hf; lia | apply Hf; lia].
Qed.

End sums.

(** ** Entries of products, slices and the difference operator *)

Section more_entries.
Local Open Scope Qc_scope.
Local Open Scope tensor_scope.
Implicit Types (a b u : tensor) (r c k n i j : nat).

Lemma wf_tabulate r c (g : nat → nat → Qc) : wf (tabulate r c g) = true.
Proof.
  unfold tabulate, wf. rewrite length_fmap, length_seq, bool_decide_eq_true_2 by done.
  simpl. apply forallb_forall. intros row [i [<- _]]%in_map_iff.
  apply bool_decide_eq_true_2. by rewrite length_fmap, length_seq.
Qed.

Lemma wf_mm a b r c c' k :
  shape a = [r; c] → shape b = [c'; k] → wf (a ∙ b) = true.
Proof.
  intros [ea ->]%shape_matrix [eb ->]%shape_matrix. apply wf_tabulate.
Qed.

Lemma entry_mm a b r c c' k i j :
  shape a = [r; c] → shape b = [c'; k] → (i < r)%nat → (j < k)%nat →
  entry (a ∙ b) i j = sum_upto c (λ l, entry a i l * entry b l j).
Proof.
  intros [ea ->]%shape_matrix [eb ->]%shape_matrix Hi Hj. unfold mm.
  by rewrite entry_tabulate.
Qed.

Lemma entry_transpose a r c i j :
  shape a = [r; c] → (i < c)%nat → (j < r)%nat →
  entry (transpose a) i j = entry a j i.
Proof.
  intros [ea ->]%shape_matrix Hi Hj. unfold transpose.
  by rewrite entry_tabulate.
Qed.

Lemma entry_ew1 (g : Qc → Qc) a r c i j :
  shape a = [r; c] → (i < r)%nat → (j < c)%nat →
  entry (ew1 g a) i j = g (entry a i j).
Proof.
  intros [ea ->]%shape_matrix Hi Hj. unfold ew1. by rewrite entry_tabulate.
Qed.

Lemma shape_difference_operator (n : nat) (D : tensor) :
  difference_operator n = Ok D → shape D = [n; (n - 1)%nat].
Proof. rewrite difference_operator_ok. by intros [= <-]. Qed.

(** Column [j] of the difference operator has [-1] in row [j] and [1] in
    row [j + 1]. *)
Lemma entry_difference_operator (n : nat) (D : tensor) (l j : nat) :
  difference_operator n = Ok D → (l < n)%nat → (j < n - 1)%nat →
  entry D l j
  = (if decide (l = S j) then 1 else 0) - (if decide (l = j) then 1 else 0).
Proof.
  rewrite difference_operator_ok. intros HD Hl Hj.
  assert (D = tabulate n (n - 1) (entry (ew2 Qcminus (eye_below n) (eye n))))
    as -> by congruence.
  rewrite entry_tabulate by done.
  rewrite (entry_ew2 Qcminus _ _ n n) by (done || lia).
  unfold eye_below, eye. by rewrite !entry_tabulate by lia.
Qed.

(** Multiplying by the difference operator takes the differences of
    neighbouring columns. *)
Lemma entry_mm_difference u (D : tensor) n k i j :
  shape u = [n; S k] → difference_operator (S k) = Ok D →
  (i < n)%nat → (j < k)%nat →
  entry (u ∙ D) i j = entry u i (S j) - entry u i j.
Proof.
  intros Hu HD Hi Hj.
  pose proof (shape_difference_operator _ _ HD) as HsD.
  rewrite (entry_mm u D n (S k) (S k) (S k - 1)) by (done || lia).
  rewrite (sum_upto_ext _ _
    (λ l, entry u i l * (if decide (l = S j) then 1 else 0)
          - entry u i l * (if decide (l = j) then 1 else 0))).
  - rewrite sum_upto_minus, !sum_upto_pick by lia. done.
  - intros l Hl. rewrite (entry_difference_operator (S k) D l j) by (done || lia).
    ring.
Qed.

(** The synthesis variable of a signal integrates back to the signal. *)
Lemma prefix_sums_of_differences u (D : tensor) n k :
  shape u = [n; S k] → wf u = true → difference_operator (S k) = Ok D →
  prefix_sums (hcat (column0 u) (u ∙ D)) = u.
Proof.
  intros Hu Hwf HD.
  pose proof (shape_difference_operator _ _ HD) as HsD.
  assert (shape (u ∙ D) = [n; k]) as HuD.
  { rewrite (shape_mm u D n (S k) (S k) (S k - 1)) by done.
    by rewrite Nat.sub_1_r. }
  destruct (shape_matrix _ _ _ Hu) as [e ->].
  destruct (shape_matrix _ _ _ HuD) as [eD HeD]. rewrite HeD.
  cbn [column0 tabulate hcat prefix_sums].
  change (Matrix n (1 + k) _) with
    (tabulate n (1 + k)
       (λ i j, if decide (j < 1)%nat
               then entry (tabulate n 1 (λ i0 _, entry (Matrix n (S k) e) i0 0)) i j
               else entry (Matrix n k eD) i (j - 1))).
  transitivity (tabulate n (S k) (entry (Matrix n (S k) e)));
    [|by apply tabulate_entry].
  apply (tabulate_ext n (S k)). intros i j Hi Hj.
  induction j as [|j IH].
  - rewrite sum_upto_S, sum_upto_0, !entry_tabulate by lia.
    rewrite decide_True by lia. ring.
  - rewrite sum_upto_S, IH by lia. rewrite entry_tabulate by lia.
    rewrite decide_False by lia. rewrite <- HeD.
    rewrite (entry_mm_difference _ D n k) by (done || lia).
    replace (S j - 1)%nat with j by lia. ring.
Qed.

End more_entries.

(** ** The initializer *)

Section more_utils.
Context `{Collaborators}.
Local Open Scope Qc_scope.
Local Open Scope tensor_scope.

(** What a well-shaped call of [init_vuz] computes. *)
Lemma init_vuz_value (A D x : tensor) (lbda : Qc) (v0 : option tensor)
    (device : option string) (force_numpy : bool) (n m k : nat) :
  shape A = [S k; m] → shape D = [S k; k] → shape x = [n; m] →
  shape (pinverse A) = [m; S k] →
  (∀ v, v0 = Some v → shape v = [n; k]) →
  init_vuz A D x lbda v0 device force_numpy
  = Ok (default (zeros n k) v0,
        (x ⊖ Scalar lbda ⊙ (default (zeros n k) v0 ∙ transpose (pinverse A ∙ D)))
          ∙ pinverse A,
        hcat (column0 ((x ⊖ Scalar lbda
                          ⊙ (default (zeros n k) v0 ∙ transpose (pinverse A ∙ D)))
                         ∙ pinverse A))
             (((x ⊖ Scalar lbda
                  ⊙ (default (zeros n k) v0 ∙ transpose (pinverse A ∙ D)))
                 ∙ pinverse A) ∙ D)).
Proof.
  intros HA HD Hx Hinv Hv0.
  assert (shape (default (zeros n k) v0) = [n; k]) as Hv.
  { destruct v0 as [w|]; simpl; [by apply Hv0 | done]. }
  unfold init_vuz, check_tensor. ok_steps.
  assert (match v0 with
          | Some w => Ok w
          | None =>
              if decide (S k = 0%nat)
              then Raise (RuntimeError "Trying to create tensor with negative dimension -1")
              else Ok (zeros n (S k - 1))
          end = Ok (default (zeros n k) v0)) as ->.
  { destruct v0; simpl; [done|]. by rewrite Nat.sub_0_r. }
  unfold v_to_u, check_tensor. ok_steps.
  destruct force_numpy; [|done].
  by repeat (erewrite atleast_2d_matrix by shapes).
Qed.

(** Two products agree when the left factors agree entry by entry. *)
Lemma mm_ext_l (a a' b : tensor) (r c c' k : nat) :
  shape a = [r; c] → shape a' = [r; c] → shape b = [c'; k] →
  (∀ i l, (i < r)%nat → (l < c)%nat → entry a i l = entry a' i l) →
  a ∙ b = a' ∙ b.
Proof.
  intros [ea ->]%shape_matrix [ea' ->]%shape_matrix [eb ->]%shape_matrix Hent.
  unfold mm. apply tabulate_ext. intros i j Hi Hj.
  apply sum_upto_ext. intros l Hl. by rewrite Hent.
Qed.

(** X1.  Without a dual variable, [init_vuz] starts the primal variable at
    [x·A⁻¹], whatever the regularisation weight. *)
Theorem init_vuz_default_dual (A D x : tensor) (lbda : Qc)
    (device : option string) (force_numpy : bool) (n m k : nat) :
  shape A = [S k; m] → shape D = [S k; k] → shape x = [n; m] →
  shape (pinverse A) = [m; S k] →
  let u := x ∙ pinverse A in
  init_vuz A D x lbda None device force_numpy
  = Ok (zeros n k, u, hcat (column0 u) (u ∙ D))
  ∧ ∀ lbda', init_vuz A D x lbda' None device force_numpy
             = init_vuz A D x lbda None device force_numpy.
Proof.
  intros HA HD Hx Hinv u.
  assert (∀ l, init_vuz A D x l None device force_numpy
               = Ok (zeros n k, u, hcat (column0 u) (u ∙ D))) as Hval.
  { intros l. rewrite (init_vuz_value A D x l None device force_numpy n m k)
      by done. cbn [default].
    assert ((x ⊖ Scalar l ⊙ (zeros n k ∙ transpose (pinverse A ∙ D)))
              ∙ pinverse A = u) as ->; [|done].
    apply (mm_ext_l _ _ _ n m m (S k)); [shapes..|].
    intros i p Hi Hp.
    rewrite (entry_ew2 Qcminus _ _ n m) by shapes.
    rewrite (entry_ew2_scalar_l Qcmult _ _ n m) by shapes.
    rewrite (entry_mm _ _ n k k m) by shapes.
    rewrite (sum_upto_ext _ _ (λ _, 0)), sum_upto_zero; [ring|].
    intros q Hq. unfold zeros. rewrite entry_tabulate by done. ring. }
  split; [apply Hval|]. intros lbda'. by rewrite !Hval.
Qed.

(** X2.  On well-shaped inputs [init_vuz] returns a dual variable of shape
    [(n, k)] and primal and synthesis variables of shape [(n, k+1)], whose
    stored rows are complete. *)
Theorem init_vuz_shapes (A D x : tensor) (lbda : Qc) (v0 : option tensor)
    (device : option string) (force_numpy : bool) (n m k : nat) :
  shape A = [S k; m] → shape D = [S k; k] → shape x = [n; m] →
  shape (pinverse A) = [m; S k] →
  (∀ v, v0 = Some v → shape v = [n; k]) →
  ∃ v u z,
    init_vuz A D x lbda v0 device force_numpy = Ok (v, u, z)
    ∧ shape v = [n; k] ∧ shape u = [n; S k] ∧ shape z = [n; S k]
    ∧ wf u = true ∧ wf z = true.
Proof.
  intros HA HD Hx Hinv Hv0. eexists _, _, _.
  split; [by apply (init_vuz_value A D x lbda v0 device force_numpy n m k)|].
  assert (shape (default (zeros n k) v0) = [n; k]) as Hv.
  { destruct v0 as [w|]; simpl; [by apply Hv0 | done]. }
  split; [done|].
  assert (shape ((x ⊖ Scalar lbda
                    ⊙ (default (zeros n k) v0 ∙ transpose (pinverse A ∙ D)))
                   ∙ pinverse A) = [n; S k]) as Hu by shapes.
  split; [done|]. split; [by rewrite (shape_hcat _ _ n n 1 k) by shapes|].
  split.
  - eapply wf_mm; shapes.
  - destruct (shape_matrix _ _ _ Hu) as [eu ->].
    assert (shape (Matrix n (S k) eu ∙ D) = [n; k]) as [eD ->]%shape_matrix
      by shapes.
    apply wf_tabulate.
Qed.

(** X3.  When [D] is the difference operator of the constructors, the
    synthesis variable that [init_vuz] returns integrates back to the primal
    variable: [cumsum(z, dim=1) = u]. *)
Theorem init_vuz_z_integrates_to_u (A D x : tensor) (lbda : Qc)
    (v0 : option tensor) (device : option string) (force_numpy : bool)
    (n m k : nat) :
  shape A = [S k; m] → difference_operator (S k) = Ok D → shape x = [n; m] →
  shape (pinverse A) = [m; S k] →
  (∀ v, v0 = Some v → shape v = [n; k]) →
  ∃ v u z,
    init_vuz A D x lbda v0 device force_numpy = Ok (v, u, z)
    ∧ cumsum1 z = Ok u.
Proof.
  intros HA HD Hx Hinv Hv0.
  assert (shape D = [S k; k]) as HsD.
  { rewrite (shape_difference_operator _ _ HD). by rewrite Nat.sub_1_r. }
  eexists _, _, _.
  split; [by apply (init_vuz_value A D x lbda v0 device force_numpy n m k)|].
  assert (shape (default (zeros n k) v0) = [n; k]) as Hv.
  { destruct v0 as [w|]; simpl; [by apply Hv0 | done]. }
  set (u := (x ⊖ Scalar lbda
               ⊙ (default (zeros n k) v0 ∙ transpose (pinverse A ∙ D)))
              ∙ pinverse A).
  assert (shape u = [n; S k]) as Hu by (subst u; shapes).
  assert (wf u = true) as Hwf by (subst u; eapply wf_mm; shapes).
  rewrite (cumsum1_ok _ n (1 + k)) by shapes.
  by rewrite (prefix_sums_of_differences u D n k).
Qed.

(** X4.  Operators computed beforehand give what [v_to_u] computes from [A]
    and [D], and when they are supplied [A] and [D] are not looked at. *)
Theorem v_to_u_precomputed (v x : tensor) (lbda : Qc) (A D Psi : tensor)
    (A' D' : option tensor) (device : option string) :
  matmul (pinverse A) D = Ok Psi →
  v_to_u v x lbda A' D' (Some (pinverse A)) (Some Psi) device
  = v_to_u v x lbda (Some A) (Some D) None None device.
Proof.
  intros HPsi. unfold v_to_u, check_tensor. rewrite !bind_Ok.
  by rewrite HPsi, !bind_Ok.
Qed.

Lemma matmul_raises_RuntimeError (a b : tensor) (e : exn) :
  matmul a b = Raise e → ∃ msg, e = RuntimeError msg.
Proof.
  unfold matmul. destruct a, b; try case_decide; intros [= <-]; eauto.
Qed.

Lemma binop_raises_RuntimeError (f : Qc → Qc → Qc) (a b : tensor) (e : exn) :
  binop f a b = Raise e → ∃ msg, e = RuntimeError msg.
Proof. unfold binop. destruct (broadcastable a b); intros [= <-]; eauto. Qed.

(** X5.  [v_to_u] raises its [ValueError] when neither the precomputed
    operators nor both of [A] and [D] are supplied, before it looks at [v]
    or [x]; when both precomputed operators or both of [A] and [D] are
    supplied it raises no [ValueError], whatever the shapes. *)
Theorem v_to_u_ValueError (v x : tensor) (lbda : Qc)
    (A D inv_A Psi_A : option tensor) (device : option string) :
  (inv_A = None ∧ Psi_A = None ∧ (A = None ∨ D = None) →
   v_to_u v x lbda A D inv_A Psi_A device
   = Raise (ValueError "If inv_A and Psi_A are None, A and D should be given"))
  ∧ ((is_Some inv_A ∧ is_Some Psi_A)
     ∨ (inv_A = None ∧ Psi_A = None ∧ is_Some A ∧ is_Some D) →
     ∀ msg, v_to_u v x lbda A D inv_A Psi_A device ≠ Raise (ValueError msg)).
Proof.
  split.
  - intros (-> & -> & [->| ->]); unfold v_to_u, check_tensor;
      rewrite !bind_Ok; [reflexivity|]. by destruct A.
  - intros Hgiven msg. unfold v_to_u, check_tensor. rewrite !bind_Ok.
    assert (∀ (iA Psi : tensor),
      (matmul v (transpose Psi) ≫= λ vPsi,
         mul (Scalar lbda) vPsi ≫= λ lvPsi,
           sub x lvPsi ≫= λ r, matmul r iA) ≠ Raise (ValueError msg)) as Htail.
    { intros iA Psi. unfold mul, sub.
      destruct (matmul v (transpose Psi)) as [vPsi|e] eqn:H1.
      2:{ apply matmul_raises_RuntimeError in H1 as [? ->]. done. }
      rewrite bind_Ok, binop_scalar_l, bind_Ok.
      destruct (binop Qcminus x _) as [r|e] eqn:H2.
      2:{ apply binop_raises_RuntimeError in H2 as [? ->]. done. }
      rewrite bind_Ok. intros H3.
      apply matmul_raises_RuntimeError in H3 as [? [=]]. }
    destruct Hgiven as [[[iA ->] [Psi ->]]|(-> & -> & [A0 ->] & [D0 ->])].
    + cbn [mbind result_bind]. apply Htail.
    + cbn [mbind result_bind].
      destruct (matmul (pinverse A0) D0) as [Psi|e] eqn:H1.
      * apply Htail.
      * apply matmul_raises_RuntimeError in H1 as [? ->]. done.
Qed.

(** X6.  A call of [init_vuz] that supplies [lbda], by position or by
    keyword, runs the body with it, and with [v0 = None] and
    [force_numpy = False] when these are left out; the keyword [inv_A] is
    rejected even then. *)
Theorem init_vuz_call_with_lbda (A D x : tensor) (lbda : Qc)
    (device : option string) (inv_A : pyval) :
  init_vuz_call [PyTensor A; PyTensor D; PyTensor x; PyFloat lbda]
    [("device", device_val device)]
  = init_vuz A D x lbda None device false
  ∧ init_vuz_call [PyTensor A; PyTensor D; PyTensor x]
      [("lbda", PyFloat lbda); ("device", device_val device)]
    = init_vuz A D x lbda None device false
  ∧ init_vuz_call [PyTensor A; PyTensor D; PyTensor x; PyFloat lbda]
      [("inv_A", inv_A); ("device", device_val device)]
    = Raise unexpected_inv_A.
Proof. by destruct device. Qed.

End more_utils.

(** ** The layers at particular points *)

Section more_layers.
Context `{Collaborators}.
Local Open Scope Qc_scope.
Local Open Scope tensor_scope.

(** Subtracting a matrix of zeros leaves a well-formed matrix as it is. *)
Lemma sub_zero_entries (u G : tensor) (n k : nat) :
  shape u = [n; k] → shape G = [n; k] → wf u = true →
  (∀ i j, (i < n)%nat → (j < k)%nat → entry G i j = 0) →
  u ⊖ G = u.
Proof.
  intros Hu HG Hwf Hzero. destruct (shape_matrix _ _ _ Hu) as [e ->].
  rewrite (ew2_same Qcminus _ _ n k) by done.
  transitivity (tabulate n k (entry (Matrix n k e))); [|by apply tabulate_entry].
  apply tabulate_ext. intros i j Hi Hj. rewrite Hzero by done. ring.
Qed.

(** What a well-shaped layer of [StepSubGradTV] computes. *)
Lemma StepSubGradTV_layer_value (self : StepSubGradTV) (x u : tensor) (lbda : Qc)
    (layer_id : nat) (layer_params : params) (s : Qc) (n m k d : nat) :
  parameter_groups (sg_base self) !! layer_key layer_id = Some layer_params →
  layer_params !! "step_size" = Some (Scalar s) →
  shape u = [n; k] → shape x = [n; m] →
  shape (sg_A_ self) = [k; m] → shape (sg_D_ self) = [k; d] →
  StepSubGradTV_layer self x lbda layer_id u
  = Ok (u ⊖ Scalar s
          ⊙ ((u ∙ sg_A_ self ⊖ x) ∙ transpose (sg_A_ self)
             ⊕ Scalar lbda ⊙ (sign (u ∙ sg_D_ self) ∙ transpose (sg_D_ self)))).
Proof.
  intros Hgroup Hs Hu Hx HA HD. unfold StepSubGradTV_layer. by ok_steps.
Qed.

(** X7.  A signal that reproduces the observations and has no variation,
    [u·A = x] and [u·D = 0], is a fixed point of every layer of
    [StepSubGradTV], whatever the step size and the regularisation. *)
Theorem StepSubGradTV_fixed_point (self : StepSubGradTV) (x u : tensor)
    (lbda : Qc) (layer_id : nat) (layer_params : params) (s : Qc)
    (n m k d : nat) :
  parameter_groups (sg_base self) !! layer_key layer_id = Some layer_params →
  layer_params !! "step_size" = Some (Scalar s) →
  shape u = [n; k] → shape x = [n; m] → wf u = true →
  shape (sg_A_ self) = [k; m] → shape (sg_D_ self) = [k; d] →
  (∀ i p, (i < n)%nat → (p < m)%nat →
     entry (u ∙ sg_A_ self) i p = entry x i p) →
  (∀ i j, (i < n)%nat → (j < d)%nat → entry (u ∙ sg_D_ self) i j = 0) →
  StepSubGradTV_layer self x lbda layer_id u = Ok u.
Proof.
  intros Hgroup Hs Hu Hx Hwf HA HD Hfit Hflat.
  rewrite (StepSubGradTV_layer_value self x u lbda layer_id layer_params s n m k d)
    by done.
  f_equal. apply (sub_zero_entries u _ n k); [done|shapes|done|].
  intros i j Hi Hj.
  rewrite (entry_ew2_scalar_l Qcmult _ _ n k) by shapes.
  rewrite (entry_ew2 Qcplus _ _ n k) by shapes.
  rewrite (entry_ew2_scalar_l Qcmult _ _ n k) by shapes.
  rewrite (entry_mm _ _ n m m k) by shapes.
  rewrite (entry_mm _ _ n d d k) by shapes.
  rewrite (sum_upto_ext m _ (λ _, 0)), sum_upto_zero.
  2:{ intros p Hp. rewrite (entry_ew2 Qcminus _ _ n m) by shapes.
      rewrite Hfit by done. ring. }
  rewrite (sum_upto_ext d _ (λ _, 0)), sum_upto_zero.
  2:{ intros q Hq. unfold sign. rewrite (entry_ew1 _ _ n d) by shapes.
      rewrite Hflat by done. change (Qcsign 0) with 0. ring. }
  ring.
Qed.

(** The affine step with the initial weights is a gradient step of length
    [1/L]. *)
Lemma initial_affine_step (A I_k u x : tensor) (L : Qc) (n m k : nat) :
  shape A = [k; m] → I_k = eye k → shape u = [n; k] → shape x = [n; m] →
  u ∙ (I_k ⊖ (A ∙ transpose A) ⊘ Scalar L) ⊕ x ∙ (transpose A ⊘ Scalar L)
  = u ⊖ Scalar (1 / L) ⊙ ((u ∙ A ⊖ x) ∙ transpose A).
Proof.
  intros HA -> Hu Hx.
  assert (shape (eye k) = [k; k]) as HI by done.
  rewrite (ew2_same Qcplus _ _ n k) by shapes.
  rewrite (ew2_same Qcminus u _ n k) by shapes.
  apply tabulate_ext. intros i j Hi Hj.
  rewrite (entry_ew2_scalar_l Qcmult _ _ n k) by shapes.
  rewrite (entry_mm u _ n k k k) by shapes.
  rewrite (entry_mm x _ n m m k) by shapes.
  rewrite (entry_mm _ (transpose A) n m m k) by shapes.
  rewrite (sum_upto_ext k _
    (λ l, entry u i l * (if decide (l = j) then 1 else 0)
          - sum_upto m (λ p, entry u i l * entry A l p * entry A j p) * / L)).
  2:{ intros l Hl. rewrite (entry_ew2 Qcminus _ _ k k) by shapes.
      rewrite (entry_ew2_scalar_r Qcdiv _ _ k k) by shapes.
      rewrite (entry_mm A _ k m m k) by shapes.
      unfold eye. rewrite entry_tabulate by done.
      rewrite (sum_upto_ext m _ (λ p, entry A l p * entry A j p)).
      2:{ intros p Hp. by rewrite (entry_transpose A k m) by done. }
      rewrite (sum_upto_ext m (λ p, entry u i l * entry A l p * entry A j p)
                 (λ p, entry u i l * (entry A l p * entry A j p)))
        by (intros; ring).
      rewrite sum_upto_scale_l. unfold Qcdiv. ring. }
  rewrite sum_upto_minus, sum_upto_pick, sum_upto_scale_r by done.
  rewrite sum_upto_swap.
  rewrite (sum_upto_ext m (λ p, entry x i p * entry (transpose A ⊘ Scalar L) p j)
             (λ p, entry x i p * entry A j p * / L)).
  2:{ intros p Hp. rewrite (entry_ew2_scalar_r Qcdiv _ _ m k) by shapes.
      rewrite (entry_transpose A k m) by done. unfold Qcdiv. ring. }
  rewrite sum_upto_scale_r.
  rewrite (sum_upto_ext m
             (λ p, entry (u ∙ A ⊖ x) i p * entry (transpose A) p j)
             (λ p, sum_upto k (λ l, entry u i l * entry A l p * entry A j p)
                   - entry x i p * entry A j p)).
  2:{ intros p Hp. rewrite (entry_ew2 Qcminus _ _ n m) by shapes.
      rewrite (entry_mm u A n k k m) by shapes.
      rewrite (entry_transpose A k m) by done.
      rewrite sum_upto_scale_r. ring. }
  rewrite sum_upto_minus. unfold Qcdiv. ring.
Qed.

End more_layers.

(** ** The initial weights *)

Section more_initial.
Context `{Collaborators}.
Local Open Scope Qc_scope.
Local Open Scope tensor_scope.

Lemma np_dot_ok (a b : tensor) (r c k : nat) :
  shape a = [r; c] → shape b = [c; k] → np_dot a b = Ok (a ∙ b).
Proof.
  intros [ea ->]%shape_matrix [eb ->]%shape_matrix. unfold np_dot.
  by rewrite decide_True.
Qed.

Lemma np_binop_ok f (a b : tensor) (r c : nat) :
  shape a = [r; c] → shape b = [r; c] → np_binop f a b = Ok (ew2 f a b).
Proof.
  intros [ea ->]%shape_matrix [eb ->]%shape_matrix. unfold np_binop. simpl.
  by rewrite !bcompat_refl.
Qed.

Lemma np_binop_scalar_r f (a : tensor) (q : Qc) :
  np_binop f a (Scalar q) = Ok (ew2 f a (Scalar q)).
Proof. by destruct a. Qed.

Ltac np_step :=
  lazymatch goal with
  | |- (np_dot ?a ?b ≫= _) = _ => erewrite (np_dot_ok a b) by shapes
  | |- (np_binop ?f ?a (Scalar ?q) ≫= _) = _ => rewrite (np_binop_scalar_r f a q)
  | |- (np_binop ?f ?a ?b ≫= _) = _ => erewrite (np_binop_ok f a b) by shapes
  | |- _ => ok_step
  end.

Lemma LpgdTautString_initial_parameters_value (self : LpgdTautString)
    (layer_id k m : nat) :
  shape (ts_A self) = [k; m] → shape (ts_I_k self) = [k; k] →
  LpgdTautString_get_initial_layer_parameters self layer_id
  = Ok (initial_weights (ts_A self) (ts_I_k self) (ts_l_ self)
          (learn_th (ts_base self))).
Proof.
  intros HA HI. unfold LpgdTautString_get_initial_layer_parameters.
  by repeat np_step.
Qed.

Lemma initial_weights_lookup (A I_k : tensor) (L : Qc) (b : bool) :
  initial_weights A I_k L b !! "Wx" = Some (transpose A ⊘ Scalar L)
  ∧ initial_weights A I_k L b !! "Wu" = Some (I_k ⊖ (A ∙ transpose A) ⊘ Scalar L)
  ∧ initial_weights A I_k L b !! "threshold"
    = (if b then Some (Scalar (1 / L)) else None).
Proof. unfold initial_weights. destruct b; by simplify_map_eq. Qed.

(** X8.  With the weights and threshold that
    [get_initial_layer_parameters] gives it, a layer of [LpgdTautString] is
    one step of the proximal gradient method: the taut-string operator at
    level [λ/L] applied to the gradient step [u − (1/L)·(u·A − x)·Aᵗ]. *)
Theorem LpgdTautString_initial_layer (self : LpgdTautString) (x u : tensor)
    (lbda : Qc) (layer_id : nat) (layer_params : params) (n m k : nat) :
  shape (ts_A self) = [k; m] → ts_I_k self = eye k →
  LpgdTautString_get_initial_layer_parameters self layer_id = Ok layer_params →
  parameter_groups (ts_base self) !! layer_key layer_id = Some layer_params →
  shape u = [n; k] → shape x = [n; m] →
  let step := Scalar (1 / ts_l_ self) in
  LpgdTautString_layer self x lbda layer_id (u, step)
  = Ok (ProxTV_l1_apply
          (u ⊖ step ⊙ ((u ∙ ts_A self ⊖ x) ∙ transpose (ts_A self)))
          (Scalar lbda ⊙ step),
        step).
Proof.
  intros HA HI Hinit Hgroup Hu Hx step.
  rewrite (LpgdTautString_initial_parameters_value self layer_id k m) in Hinit
    by (done || by rewrite HI).
  injection Hinit as <-.
  destruct (initial_weights_lookup (ts_A self) (ts_I_k self) (ts_l_ self)
              (learn_th (ts_base self))) as (HWx & HWu & Hth).
  unfold LpgdTautString_layer.
  rewrite (getitem_Some _ _ _ Hgroup), bind_Ok.
  rewrite (getitem_Some _ _ _ HWx), (getitem_Some _ _ _ HWu), !bind_Ok.
  assert ((if learn_th (ts_base self)
           then getitem (initial_weights (ts_A self) (ts_I_k self) (ts_l_ self)
                           (learn_th (ts_base self))) "threshold"
           else Ok step) = Ok step) as ->.
  { destruct (learn_th (ts_base self)); [|done].
    by rewrite (getitem_Some _ _ _ Hth). }
  rewrite bind_Ok.
  assert (shape (ts_I_k self) = [k; k]) as HsI by (by rewrite HI).
  ok_steps.
  by rewrite (initial_affine_step (ts_A self) (ts_I_k self) u x (ts_l_ self) n m k).
Qed.

Lemma ListaTV_initial_parameters_value (self : ListaTV) (layer_id k m : nat) :
  shape (tv_A self) = [k; m] → shape (tv_I_k self) = [k; k] →
  tv_learn_prox self ≠ LEARN_PROX_PER_LAYER →
  ListaTV_get_initial_layer_parameters self layer_id
  = Ok (self, initial_weights (tv_A self) (tv_I_k self) (tv_l_ self)
                (learn_th (tv_base self))).
Proof.
  intros HA HI Hmode. unfold ListaTV_get_initial_layer_parameters.
  repeat np_step.
  rewrite bool_decide_eq_false_2 by done.
  unfold initial_weights. by destruct (learn_th (tv_base self)).
Qed.

(** X9.  In the modes with one shared nested network, a layer of [ListaTV]
    with the weights that [get_initial_layer_parameters] gives it applies
    the nested network at level [λ/L] to the gradient step
    [u − (1/L)·(u·A − x)·Aᵗ] and integrates the result. *)
Theorem ListaTV_initial_layer (self : ListaTV) (x u : tensor) (lbda : Qc)
    (layer_id : nat) (layer_params : params) (net : ListaLASSO) (n m k : nat) :
  shape (tv_A self) = [k; m] → tv_I_k self = eye k →
  tv_learn_prox self ≠ LEARN_PROX_PER_LAYER → tv_prox_tv self = SharedProx net →
  ListaTV_get_initial_layer_parameters self layer_id = Ok (self, layer_params) →
  parameter_groups (tv_base self) !! layer_key layer_id = Some layer_params →
  shape u = [n; k] → shape x = [n; m] →
  let step := Scalar (1 / tv_l_ self) in
  let z :=
    ListaLASSO_call net
      (u ⊖ step ⊙ ((u ∙ tv_A self ⊖ x) ∙ transpose (tv_A self)))
      (Scalar lbda ⊙ step) in
  ∀ r c, shape z = [r; c] →
  ListaTV_layer self x lbda layer_id u = Ok (prefix_sums z).
Proof.
  intros HA HI Hmode Hslot Hinit Hgroup Hu Hx step z r c Hz.
  rewrite (ListaTV_initial_parameters_value self layer_id k m) in Hinit
    by (done || by rewrite HI).
  injection Hinit as <-.
  destruct (initial_weights_lookup (tv_A self) (tv_I_k self) (tv_l_ self)
              (learn_th (tv_base self))) as (HWx & HWu & Hth).
  assert (shape (tv_I_k self) = [k; k]) as HsI by (by rewrite HI).
  unfold ListaTV_layer, check_tensor.
  rewrite (getitem_Some _ _ _ Hgroup), bind_Ok.
  rewrite (getitem_Some _ _ _ HWx), (getitem_Some _ _ _ HWu), !bind_Ok.
  assert (Py.get (initial_weights (tv_A self) (tv_I_k self) (tv_l_ self)
                    (learn_th (tv_base self)))
            "threshold" (Scalar (1 / tv_l_ self)) = step) as ->.
  { unfold Py.get. rewrite Hth. by destruct (learn_th (tv_base self)). }
  assert (select_prox self layer_id = Ok (SharedProx net)) as ->.
  { unfold select_prox. by rewrite bool_decide_eq_false_2, Hslot. }
  ok_steps.
  rewrite (initial_affine_step (tv_A self) (tv_I_k self) u x (tv_l_ self) n m k)
    by done.
  unfold call_prox. fold step. fold z. by ok_steps.
Qed.

End more_initial.

(** ** The two primal-dual variants at their initial parameters *)

Section more_condat_vu.
Context `{Collaborators}.
Local Open Scope Qc_scope.
Local Open Scope tensor_scope.

(** X10.  With the parameters that their [get_initial_layer_parameters]
    give, a layer of [CoupledCondatVu] and a layer of [StepCondatVu] over
    the same operators compute the same state, for every input and state:
    both are the Condat-Vu iteration with [σ = 0.5] and the step sizes of
    the constructor. *)
Theorem CondatVu_variants_agree_initially (coupled : CoupledCondatVu)
    (step : StepCondatVu) (x : tensor) (lbda : Qc) (layer_id : nat)
    (st : cv_state) :
  cc_A_ coupled = sc_A_ step → cc_D coupled = sc_D_ step →
  cc_l_A coupled = sc_l_A step → cc_l_D coupled = sc_l_D step →
  cc_rho coupled = sc_rho step → cc_sigma coupled = half →
  cc_tau coupled = 1 / (cc_l_A coupled / 2 + cc_sigma coupled * cc_l_D coupled ^ 2) →
  parameter_groups (cc_base coupled) !! layer_key layer_id
  = Some (CoupledCondatVu_get_initial_layer_parameters coupled layer_id) →
  parameter_groups (sc_base step) !! layer_key layer_id
  = Some (StepCondatVu_get_initial_layer_parameters layer_id) →
  CoupledCondatVu_layer coupled x lbda layer_id st
  = StepCondatVu_layer step x lbda layer_id st.
Proof.
  intros HA HD HlA HlD Hrho Hsigma Htau Hcg Hsg.
  unfold CoupledCondatVu_layer, StepCondatVu_layer, check_tensor.
  rewrite (getitem_Some _ _ _ Hcg), (getitem_Some _ _ _ Hsg), !bind_Ok.
  assert (getitem (CoupledCondatVu_get_initial_layer_parameters coupled layer_id)
            "W_coupled" = Ok (sc_D_ step)) as ->.
  { unfold CoupledCondatVu_get_initial_layer_parameters, getitem.
    destruct (learn_th (cc_base coupled)); simplify_map_eq; by rewrite HD. }
  assert (Py.get (CoupledCondatVu_get_initial_layer_parameters coupled layer_id)
            "threshold" (Scalar 1) = Scalar 1) as ->.
  { unfold CoupledCondatVu_get_initial_layer_parameters, Py.get.
    destruct (learn_th (cc_base coupled)); by simplify_map_eq. }
  assert (getitem (StepCondatVu_get_initial_layer_parameters layer_id) "sigma"
          = Ok (Scalar half)) as -> by done.
  rewrite !bind_Ok.
  change (clamp (Scalar half) half 2) with (Scalar (Qcclamp half 2 half)).
  rewrite (Qcclamp_inside half 2 half)
    by (split; [apply Qcle_refl | apply half_le_2]).
  rewrite Htau, Hsigma, HA, HlA, HlD, Hrho.
  change (mul (Scalar lbda) (Scalar 1)) with (Ok (Scalar (lbda * 1))).
  rewrite Qcmult_1_r. reflexivity.
Qed.

End more_condat_vu.

(** ** The nested networks of [ListaTV] in per-layer mode *)

Section more_prox.
Context `{Collaborators}.

(** A property that every round of a loop carries forward holds when the
    loop returns. *)
Lemma for_range_invariant {S} (P : nat → S → Prop) (n : nat)
    (body : nat → S → result S) (s s' : S) :
  P 0%nat s →
  (∀ i t t', (i < n)%nat → P i t → body i t = Ok t' → P (Datatypes.S i) t') →
  for_range n body s = Ok s' → P n s'.
Proof.
  revert s'. induction n as [|n IH]; intros s' H0 Hstep.
  - by intros [= <-].
  - rewrite for_range_S. destruct (for_range n body s) as [t|e] eqn:Hn; [|done].
    rewrite bind_Ok. intros Hbody. apply (Hstep n t); [lia| |done].
    apply IH; [done| |done]. intros i u u' Hi. apply Hstep. lia.
Qed.

(** X11.  When [get_global_parameters] returns in per-layer mode, every
    layer has its nested network, the networks that were there before are
    the same, and [forward] finds the network of each layer. *)
Theorem ListaTV_per_layer_networks (self self' : ListaTV)
    (initial_parameters : groups) :
  tv_learn_prox self = LEARN_PROX_PER_LAYER →
  ListaTV_get_global_parameters self initial_parameters = Ok self' →
  tv_learn_prox self' = LEARN_PROX_PER_LAYER
  ∧ n_layers (tv_base self') = n_layers (tv_base self)
  ∧ (∀ nets0, tv_prox_tv self = ProxByLayer nets0 →
       ∃ nets, tv_prox_tv self' = ProxByLayer nets ∧ nets0 ⊆ nets)
  ∧ (∀ layer_id, (layer_id < n_layers (tv_base self))%nat →
       ∃ net, select_prox self' layer_id = Ok (SharedProx net)).
Proof.
  intros Hmode. unfold ListaTV_get_global_parameters.
  rewrite Hmode.
  rewrite (bool_decide_eq_false_2
             (LEARN_PROX_PER_LAYER ∈ [LEARN_PROX_GLOBAL; LEARN_PROX_FALSE]))
    by (by apply (bool_decide_unpack _)).
  rewrite bool_decide_eq_true_2 by done.
  intros Hloop.
  pose (P := λ (j : nat) (t : ListaTV),
    tv_learn_prox t = LEARN_PROX_PER_LAYER
    ∧ n_layers (tv_base t) = n_layers (tv_base self)
    ∧ (∀ nets0, tv_prox_tv self = ProxByLayer nets0 →
         ∃ nets, tv_prox_tv t = ProxByLayer nets ∧ nets0 ⊆ nets)
    ∧ (∀ i, (i < j)%nat →
         ∃ nets net, tv_prox_tv t = ProxByLayer nets ∧ nets !! i = Some net)).
  assert (P (n_layers (tv_base self)) self') as (Hm & Hn & Hkeep & Hall).
  { refine (for_range_invariant P _ _ self self' _ _ Hloop).
    - split; [done|]. split; [done|]. split; [eauto|]. intros i Hi. lia.
    - clear Hloop. intros j t t' Hj (Hm & Hn & Hkeep & Hall).
      unfold prox_contains, _initialize_prox_tv_per_layer, prox_setitem.
      destruct (tv_prox_tv t) as [|net|nets] eqn:Hslot; [done..|].
      rewrite bind_Ok. case_bool_decide as Hpresent.
      + intros [= <-]. unfold P. rewrite Hslot.
        split; [done|]. split; [done|]. split; [done|].
        intros i Hi. destruct (decide (i = j)) as [->|Hne].
        * destruct Hpresent as [net Hnet]. eauto.
        * apply Hall. lia.
      + destruct (getitem _ _) as [layer_params|]; [|done].
        rewrite !bind_Ok. intros [= <-]. unfold P. cbn.
        split; [done|]. split; [done|]. split.
        * intros nets0 Hnets0.
          destruct (Hkeep nets0 Hnets0) as (nets1 & [= <-] & Hsub).
          eexists. split; [done|]. etrans; [done|].
          apply insert_subseteq. by apply eq_None_not_Some.
        * intros i Hi. destruct (decide (i = j)) as [->|Hne].
          -- eexists _, _. split; [done|]. apply lookup_insert_eq.
          -- destruct (Hall i) as (nets1 & net & [= <-] & Hnet); [lia|].
             eexists _, _. split; [done|]. by rewrite lookup_insert_ne. }
  split; [done|]. split; [done|]. split; [done|].
  intros layer_id Hlt. destruct (Hall layer_id Hlt) as (nets & net & Hslot & Hnet).
  exists net. unfold select_prox.
  by rewrite Hm, bool_decide_eq_true_2, Hslot, Hnet.
Qed.

End more_prox.

(** ** The training loss *)

Section more_loss.
Variable RegTV_apply : tensor → tensor → Qc → tensor.
Local Open Scope Qc_scope.
Local Open Scope tensor_scope.

Lemma Qcmult_nonneg (a b : Qc) : 0 ≤ a → 0 ≤ b → 0 ≤ a * b.
Proof.
  intros Ha Hb. replace 0 with (0 * b) by ring.
  by apply Qcmult_le_compat_r.
Qed.

Lemma Qcsquare_nonneg (a : Qc) : 0 ≤ a * a.
Proof.
  destruct (Qclt_le_dec a 0) as [Hneg|Hpos].
  - replace (a * a) with ((- a) * (- a)) by ring.
    assert (0 ≤ - a).
    { replace 0 with (- 0) by ring. apply Qcopp_le_compat.
      by apply Qclt_le_weak. }
    by apply Qcmult_nonneg.
  - by apply Qcmult_nonneg.
Qed.

Lemma Qcabsolute_nonneg (q : Qc) : 0 ≤ Qcabsolute q.
Proof.
  unfold Qcabsolute. destruct (decide (q < 0)) as [Hneg|Hpos].
  - replace 0 with (- 0) by ring. apply Qcopp_le_compat.
    by apply Qclt_le_weak.
  - by apply Qcnot_lt_le.
Qed.

Lemma Qcdiv_nonneg (a b : Qc) : 0 ≤ a → 0 < b → 0 ≤ a / b.
Proof.
  intros Ha Hb. apply (Qcmult_lt_0_le_reg_r _ _ b Hb).
  assert (b ≠ 0) as Hne by (intros ->; by apply (Qclt_not_le 0 0 Hb), Qcle_refl).
  replace (0 * b) with 0 by ring.
  replace (a / b * b) with a by (field; done). done.
Qed.

Lemma Qc_of_nat_pos (n : nat) : (0 < n)%nat → 0 < Qc_of_nat n.
Proof.
  intros Hn. unfold Qc_of_nat, Qclt. cbn.
  rewrite (Qred_correct (inject_Z (Z.of_nat n))).
  unfold Qlt. change (Qred 0) with 0%Q. cbn. lia.
Qed.

Lemma total_matrix a r c :
  shape a = [r; c] → total a = sum_upto r (λ i, sum_upto c (entry a i)).
Proof. by intros [e ->]%shape_matrix. Qed.

Lemma drop_first_column_ok a r c :
  shape a = [r; c] →
  drop_first_column a = Ok (tabulate r (c - 1) (λ i j, entry a i (S j))).
Proof. by intros [e ->]%shape_matrix. Qed.

Lemma drop_last_column_ok a r c :
  shape a = [r; c] → drop_last_column a = Ok (tabulate r (c - 1) (entry a)).
Proof. by intros [e ->]%shape_matrix. Qed.

(** The value of the loss without the Moreau envelope, in terms of the
    entries of [u]. *)
Lemma _loss_fn_value (A_ x u : tensor) (lbda : Qc) (n m k : nat) :
  shape x = [n; m] → shape u = [n; k] → shape A_ = [k; m] →
  _loss_fn RegTV_apply A_ false x lbda u
  = Ok (Scalar
          ((half * total ((u ∙ A_ ⊖ x) ⊙ (u ∙ A_ ⊖ x))
            + lbda * sum_upto n (λ i, sum_upto (k - 1) (λ j,
                       Qcabsolute (entry u i (S j) - entry u i j))))
           / Qc_of_nat n)).
Proof.
  intros Hx Hu HA. unfold _loss_fn, tsum.
  rewrite (shape0_ok x n m Hx), bind_Ok.
  ok_steps.
  rewrite (drop_first_column_ok u n k Hu), bind_Ok.
  rewrite (drop_last_column_ok u n k Hu), bind_Ok.
  ok_steps. do 4 f_equal.
  rewrite (total_matrix _ n (k - 1)) by (unfold tabs; shapes).
  f_equal. apply sum_upto_ext. intros i Hi. apply sum_upto_ext. intros j Hj.
  unfold tabs. rewrite (entry_ew1 _ _ n (k - 1)) by shapes.
  rewrite (entry_ew2 _ _ _ n (k - 1)) by shapes.
  by rewrite !entry_tabulate by done.
Qed.

(** X12.  The penalty of the loss is the ℓ1 norm of [u D] for the operator
    [D] that the constructors build: without the Moreau envelope,
    [_loss_fn] returns [(½‖uA − x‖² + λ‖uD‖₁) / n_samples]. *)
Theorem loss_fn_penalty_is_l1_of_uD (A_ x u D : tensor) (lbda : Qc)
    (n m k : nat) :
  shape x = [n; m] → shape u = [n; S k] → shape A_ = [S k; m] →
  (0 < n)%nat → difference_operator (S k) = Ok D →
  _loss_fn RegTV_apply A_ false x lbda u
  = Ok (Scalar
          ((half * total ((u ∙ A_ ⊖ x) ⊙ (u ∙ A_ ⊖ x))
            + lbda * total (tabs (u ∙ D)))
           / Qc_of_nat n)).
Proof.
  intros Hx Hu HA Hn HD.
  rewrite (_loss_fn_value A_ x u lbda n m (S k) Hx Hu HA).
  pose proof (shape_difference_operator (S k) D HD) as HsD.
  replace (S k - 1)%nat with k in * by lia.
  do 5 f_equal.
  rewrite (total_matrix (tabs (u ∙ D)) n k) by (unfold tabs; shapes).
  apply sum_upto_ext. intros i Hi. apply sum_upto_ext. intros j Hj.
  unfold tabs. rewrite (entry_ew1 _ _ n k) by shapes.
  by rewrite (entry_mm_difference u D n k i j).
Qed.

(** X13.  With a non-negative regularisation the loss without the Moreau
    envelope is a non-negative number. *)
Theorem loss_fn_nonneg (A_ x u : tensor) (lbda : Qc) (n m k : nat) :
  shape x = [n; m] → shape u = [n; k] → shape A_ = [k; m] →
  (0 < n)%nat → 0 ≤ lbda →
  ∃ loss, _loss_fn RegTV_apply A_ false x lbda u = Ok (Scalar loss) ∧ 0 ≤ loss.
Proof.
  intros Hx Hu HA Hn Hlbda. eexists. split.
  { by apply (_loss_fn_value A_ x u lbda n m k). }
  apply Qcdiv_nonneg; [|by apply Qc_of_nat_pos].
  replace 0 with (0 + 0) by ring. apply Qcplus_le_compat.
  - apply Qcmult_nonneg; [by vm_compute|].
    rewrite (total_matrix _ n m) by shapes.
    apply sum_upto_nonneg. intros i Hi. apply sum_upto_nonneg. intros j Hj.
    rewrite (entry_ew2 _ _ _ n m) by shapes. apply Qcsquare_nonneg.
  - apply Qcmult_nonneg; [done|].
    apply sum_upto_nonneg. intros i Hi. apply sum_upto_nonneg. intros j Hj.
    apply Qcabsolute_nonneg.
Qed.

End more_loss.

(** ** The ['prox:'] keys of a layer in per-layer mode *)

Section more_prefix.
Context `{Collaborators}.

Lemma substring_all (s : string) : String.substring 0 (String.length s) s = s.
Proof. induction s as [|c s IH]; cbn; congruence. Qed.

Lemma append_cons c (s k : string) : String c s +:+ k = String c (s +:+ k).
Proof. reflexivity. Qed.

Lemma append_nil (k : string) : "" +:+ k = k.
Proof. reflexivity. Qed.

Lemma strip_prefixed (k : string) :
  String.substring 5 (String.length ("prox:" +:+ k) - 5) ("prox:" +:+ k) = k.
Proof.
  rewrite !append_cons, append_nil. cbn. rewrite Nat.sub_0_r.
  apply substring_all.
Qed.

Lemma prefixed_true (k : string) : String.prefix "prox:" ("prox:" +:+ k) = true.
Proof.
  rewrite !append_cons, append_nil.
  do 5 (cbn [String.prefix]; destruct (Ascii.ascii_dec _ _); [|done]).
  by destruct k.
Qed.

Lemma prefixed_inv (s : string) :
  String.prefix "prox:" s = true →
  s = "prox:" +:+ String.substring 5 (String.length s - 5) s.
Proof.
  rewrite !append_cons, append_nil.
  do 5 (destruct s as [|? s]; [done|]; cbn [String.prefix];
        destruct (Ascii.ascii_dec _ _) as [<-|]; [|done]).
  intros _. cbn. by rewrite Nat.sub_0_r, substring_all.
Qed.

(** The comprehension of [get_global_parameters] maps [k] to what the
    dict holds under ['prox:' + k]. *)
Lemma strip_prox_prefix_lookup (layer_params : params) (k : string) :
  strip_prox_prefix layer_params !! k = layer_params !! ("prox:" +:+ k).
Proof.
  unfold strip_prox_prefix.
  set (f := λ kv : string * tensor,
              if String.prefix "prox:" kv.1
              then Some (String.substring 5 (String.length kv.1 - 5) kv.1, kv.2)
              else None).
  assert (∀ l : list (string * tensor), NoDup l.*1 → NoDup (omap f l).*1)
    as Hnodup.
  { induction l as [|[key v] l IH]; [done|]. cbn.
    intros [Hnotin Hl]%NoDup_cons. unfold f at 1. cbn.
    destruct (String.prefix "prox:" key) eqn:Hkey; [|by apply IH].
    cbn. apply NoDup_cons. split; [|by apply IH].
    intros ([k2 v2] & Heq & ([key2 v2'] & Hin & Hf)%list_elem_of_omap)%list_elem_of_fmap.
    cbn in Heq. unfold f in Hf. cbn in Hf.
    destruct (String.prefix "prox:" key2) eqn:Hkey2; [|done].
    injection Hf as Hk2 _. rewrite <- Hk2 in Heq. apply Hnotin.
    rewrite (prefixed_inv key Hkey), Heq, <- (prefixed_inv key2 Hkey2).
    by apply (list_elem_of_fmap_2 fst l (key2, v2')). }
  destruct (layer_params !! ("prox:" +:+ k)) as [v|] eqn:Hlookup.
  - apply elem_of_list_to_map_1; [apply Hnodup, NoDup_fst_map_to_list|].
    apply list_elem_of_omap. exists ("prox:" +:+ k, v).
    split; [by apply elem_of_map_to_list|].
    unfold f. cbn [fst snd]. by rewrite prefixed_true, strip_prefixed.
  - apply not_elem_of_list_to_map_1.
    intros ([k2 v2] & Heq & ([key2 v2'] & Hin & Hf)%list_elem_of_omap)%list_elem_of_fmap.
    cbn in Heq. unfold f in Hf. cbn in Hf.
    destruct (String.prefix "prox:" key2) eqn:Hkey2; [|done].
    injection Hf as Hk2 _. rewrite <- Hk2 in Heq.
    apply elem_of_map_to_list in Hin.
    rewrite (prefixed_inv key2 Hkey2), <- Heq in Hin. congruence.
Qed.

(** What the loop of [_initialize_prox_tv_per_layer] leaves in the dict. *)
Lemma prefixed_items_lookup (layer_params raveled : params) (key : string) :
  map_fold (λ k p acc, <["prox:" +:+ k := p]> acc) layer_params raveled !! key
  = if String.prefix "prox:" key
    then match raveled !! String.substring 5 (String.length key - 5) key with
         | Some p => Some p
         | None => layer_params !! key
         end
    else layer_params !! key.
Proof.
  revert key.
  apply (map_fold_weak_ind (λ acc r, ∀ key,
    acc !! key
    = if String.prefix "prox:" key
      then match r !! String.substring 5 (String.length key - 5) key with
           | Some p => Some p
           | None => layer_params !! key
           end
      else layer_params !! key)).
  { intros key. rewrite lookup_empty. by destruct (String.prefix _ _). }
  intros i x m r Hi IH key.
  destruct (decide (key = "prox:" +:+ i)) as [->|Hne].
  - rewrite lookup_insert_eq.
    by rewrite prefixed_true, strip_prefixed, lookup_insert_eq.
  - rewrite lookup_insert_ne by done. rewrite IH.
    destruct (String.prefix "prox:" key) eqn:Hkey; [|done].
    rewrite lookup_insert_ne; [done|].
    intros ->. apply Hne. by apply prefixed_inv.
Qed.

(** X14.  The parameters that [_initialize_prox_tv_per_layer] writes into
    the dict of a layer are the ones that [get_global_parameters] reads
    back from it: stripping the prefix of the ['prox:'] keys gives the
    raveled parameters of the nested network of the layer, and the other
    keys of the layer are unchanged. *)
Theorem prox_parameters_round_trip (self self' : ListaTV) (layer_id : nat)
    (layer_params layer_params' : params)
    (initial_parameters_prox : option groups) :
  (∀ key, String.prefix "prox:" key = true → layer_params !! key = None) →
  _initialize_prox_tv_per_layer self layer_id layer_params
    initial_parameters_prox = Ok (self', layer_params') →
  ∃ nets net,
    tv_prox_tv self' = ProxByLayer nets ∧ nets !! layer_id = Some net
    ∧ strip_prox_prefix layer_params'
      = ravel_group_params (ListaLASSO_parameter_groups net)
    ∧ ∀ key, String.prefix "prox:" key = false →
        layer_params' !! key = layer_params !! key.
Proof.
  intros Hfresh. unfold _initialize_prox_tv_per_layer, prox_setitem.
  destruct (tv_prox_tv self) as [|shared|nets]; [done..|].
  rewrite bind_Ok. intros [= <- <-]. cbn [tv_prox_tv tv_with].
  eexists _, _. split; [done|]. split; [apply lookup_insert_eq|]. split.
  - apply map_eq. intros k.
    rewrite strip_prox_prefix_lookup, prefixed_items_lookup.
    rewrite prefixed_true, strip_prefixed.
    destruct (ravel_group_params _ !! k); [done|].
    apply Hfresh, prefixed_true.
  - intros key Hkey. by rewrite prefixed_items_lookup, Hkey.
Qed.

End more_prefix.

(** ** The further properties on concrete networks *)

Section more_sample.
Import Sample Initial.
Local Open Scope Qc_scope.
Local Open Scope tensor_scope.
Local Existing Instance collaborators.

(** X1 at [A = I2], [D = D2] and one observation. *)
Lemma init_vuz_default_dual_witness :
  shape I2 = [2; 2]%nat ∧ shape D2 = [2; 1]%nat ∧ shape x0 = [1; 2]%nat
  ∧ shape (pinverse I2) = [2; 2]%nat
  ∧ init_vuz I2 D2 x0 (Q2Qc (1 # 10)) None None false
    = Ok (zeros 1 1, x0 ∙ pinverse I2,
          hcat (column0 (x0 ∙ pinverse I2)) ((x0 ∙ pinverse I2) ∙ D2)).
Proof.
  do 4 (split; [reflexivity|]).
  refine (proj1 (init_vuz_default_dual I2 D2 x0 (Q2Qc (1 # 10)) None false
                   1 2 1 eq_refl eq_refl eq_refl eq_refl)).
Defined.

(** X2 on the same inputs, with a supplied dual variable. *)
Lemma init_vuz_shapes_witness :
  shape I2 = [2; 2]%nat ∧ shape D2 = [2; 1]%nat ∧ shape x0 = [1; 2]%nat
  ∧ shape (pinverse I2) = [2; 2]%nat ∧ shape v0 = [1; 1]%nat
  ∧ ∃ v u z,
      init_vuz I2 D2 x0 (Q2Qc (1 # 10)) (Some v0) None false = Ok (v, u, z)
      ∧ shape v = [1; 1]%nat ∧ shape u = [1; 2]%nat ∧ shape z = [1; 2]%nat
      ∧ wf u = true ∧ wf z = true.
Proof.
  do 5 (split; [reflexivity|]).
  apply (init_vuz_shapes I2 D2 x0 (Q2Qc (1 # 10)) (Some v0) None false 1 2 1);
    [reflexivity..|]. by intros v [= <-].
Defined.

(** X3 with the difference operator on two atoms. *)
Lemma init_vuz_z_integrates_to_u_witness :
  ∃ D, difference_operator 2 = Ok D
  ∧ ∃ v u z,
      init_vuz I2 D x0 (Q2Qc (1 # 10)) None None false = Ok (v, u, z)
      ∧ cumsum1 z = Ok u.
Proof.
  eexists. split; [reflexivity|].
  apply (init_vuz_z_integrates_to_u I2 _ x0 (Q2Qc (1 # 10)) None None false
           1 2 1); [reflexivity..|]. by intros v [=].
Defined.

(** X4 at [A = I2] and [D = D2]. *)
Lemma v_to_u_precomputed_witness :
  ∃ Psi, matmul (pinverse I2) D2 = Ok Psi
  ∧ v_to_u v0 x0 (Q2Qc (1 # 10)) None None (Some (pinverse I2)) (Some Psi) None
    = v_to_u v0 x0 (Q2Qc (1 # 10)) (Some I2) (Some D2) None None None.
Proof.
  eexists. split; [reflexivity|].
  refine (v_to_u_precomputed v0 x0 (Q2Qc (1 # 10)) I2 D2 _ None None None
            eq_refl).
Defined.

(** X5 with nothing supplied, and with [A] and [D] supplied. *)
Lemma v_to_u_ValueError_witness :
  v_to_u v0 x0 (Q2Qc (1 # 10)) None None None None None
  = Raise (ValueError "If inv_A and Psi_A are None, A and D should be given")
  ∧ ∀ msg, v_to_u v0 x0 (Q2Qc (1 # 10)) (Some I2) (Some D2) None None None
           ≠ Raise (ValueError msg).
Proof.
  split.
  - refine (proj1 (v_to_u_ValueError v0 x0 (Q2Qc (1 # 10)) None None None None
                     None) _).
    split; [reflexivity|]. split; [reflexivity|]. by left.
  - refine (proj2 (v_to_u_ValueError v0 x0 (Q2Qc (1 # 10)) (Some I2) (Some D2)
                     None None None) _).
    right. split; [reflexivity|]. split; [reflexivity|]. split; by eexists.
Defined.

(** X7 at a constant signal that is its own observation. *)
Lemma StepSubGradTV_fixed_point_witness :
  wf ones = true
  ∧ (∀ i j, (i < 1)%nat → (j < 1)%nat → entry (ones ∙ D2) i j = 0)
  ∧ StepSubGradTV_layer (sub_grad unit_step_groups) ones (Q2Qc (1 # 10)) 0 ones
    = Ok ones.
Proof.
  assert (∀ i j, (i < 1)%nat → (j < 1)%nat → entry (ones ∙ D2) i j = 0) as HD.
  { intros i j Hi Hj. assert (i = 0%nat) as -> by lia.
    assert (j = 0%nat) as -> by lia. apply Qc_is_canon. by vm_compute. }
  split; [reflexivity|]. split; [exact HD|].
  refine (StepSubGradTV_fixed_point (sub_grad unit_step_groups) ones ones
            (Q2Qc (1 # 10)) 0%nat {[ "step_size" := Scalar 1 ]} 1 1 2 2 1
            eq_refl eq_refl eq_refl eq_refl eq_refl eq_refl eq_refl _ HD).
  intros i p Hi Hp. assert (i = 0%nat) as -> by lia.
  destruct p as [|[|p]]; [apply Qc_is_canon; by vm_compute..|lia].
Defined.

(** X8 at [A = I2] with [L = 1]. *)
Lemma LpgdTautString_initial_layer_witness :
  LpgdTautString_get_initial_layer_parameters (taut_string initial_groups) 0
  = Ok (initial_weights I2 (eye 2) 1 false)
  ∧ LpgdTautString_layer (taut_string initial_groups) x0 (Q2Qc (1 # 10)) 0
      (x0, Scalar (1 / 1))
    = Ok (ProxTV_l1_apply
            (x0 ⊖ Scalar (1 / 1) ⊙ ((x0 ∙ I2 ⊖ x0) ∙ transpose I2))
            (Scalar (Q2Qc (1 # 10)) ⊙ Scalar (1 / 1)),
          Scalar (1 / 1)).
Proof.
  split; [reflexivity|].
  refine (LpgdTautString_initial_layer (taut_string initial_groups) x0 x0
            (Q2Qc (1 # 10)) 0%nat (initial_weights I2 (eye 2) 1 false) 1 2 2
            eq_refl eq_refl eq_refl eq_refl eq_refl eq_refl).
Defined.

(** X9 at [A = I2] with [L = 1] and one shared nested network. *)
Lemma ListaTV_initial_layer_witness :
  ListaTV_get_initial_layer_parameters
    (lista_tv LEARN_PROX_GLOBAL (SharedProx prox_net) initial_groups) 0
  = Ok (lista_tv LEARN_PROX_GLOBAL (SharedProx prox_net) initial_groups,
        initial_weights I2 (eye 2) 1 false)
  ∧ ListaTV_layer
      (lista_tv LEARN_PROX_GLOBAL (SharedProx prox_net) initial_groups)
      x0 (Q2Qc (1 # 10)) 0 x0
    = Ok (prefix_sums
            (ListaLASSO_call prox_net
               (x0 ⊖ Scalar (1 / 1) ⊙ ((x0 ∙ I2 ⊖ x0) ∙ transpose I2))
               (Scalar (Q2Qc (1 # 10)) ⊙ Scalar (1 / 1)))).
Proof.
  split; [reflexivity|].
  refine (ListaTV_initial_layer
            (lista_tv LEARN_PROX_GLOBAL (SharedProx prox_net) initial_groups)
            x0 x0 (Q2Qc (1 # 10)) 0%nat (initial_weights I2 (eye 2) 1 false)
            prox_net 1 2 2 eq_refl eq_refl _ eq_refl eq_refl eq_refl eq_refl
            eq_refl 1%nat 2%nat eq_refl).
  discriminate.
Defined.

(** X10 on the two networks over [I2] and [D2]. *)
Lemma CondatVu_variants_agree_initially_witness :
  cc_sigma (coupled initial_coupled_groups) = half
  ∧ CoupledCondatVu_layer (coupled initial_coupled_groups) x0 (Q2Qc (1 # 10))
      0 state0
    = StepCondatVu_layer (step_condat initial_step_groups) x0 (Q2Qc (1 # 10))
        0 state0.
Proof.
  split; [reflexivity|].
  refine (CondatVu_variants_agree_initially (coupled initial_coupled_groups)
            (step_condat initial_step_groups) x0 (Q2Qc (1 # 10)) 0%nat state0
            eq_refl eq_refl eq_refl eq_refl eq_refl eq_refl eq_refl eq_refl
            eq_refl).
Defined.

(** X11 on a network of one layer that starts without nested networks. *)
Lemma ListaTV_per_layer_networks_witness :
  ∃ self',
    ListaTV_get_global_parameters
      (lista_tv LEARN_PROX_PER_LAYER (ProxByLayer ∅) tv_groups) ∅ = Ok self'
    ∧ ∃ net, select_prox self' 0 = Ok (SharedProx net).
Proof.
  eexists. split; [reflexivity|].
  refine (proj2 (proj2 (proj2
            (ListaTV_per_layer_networks
               (lista_tv LEARN_PROX_PER_LAYER (ProxByLayer ∅) tv_groups) _ ∅
               eq_refl eq_refl))) 0%nat _).
  cbn. lia.
Defined.

(** X12 at [A = I2] where the signal is the observation. *)
Lemma loss_fn_penalty_is_l1_of_uD_witness :
  ∃ D, difference_operator 2 = Ok D
  ∧ _loss_fn (λ loss _ _, loss) I2 false x0 (Q2Qc (1 # 10)) x0
    = Ok (Scalar
            ((half * total ((x0 ∙ I2 ⊖ x0) ⊙ (x0 ∙ I2 ⊖ x0))
              + Q2Qc (1 # 10) * total (tabs (x0 ∙ D)))
             / Qc_of_nat 1)).
Proof.
  eexists. split; [reflexivity|].
  refine (loss_fn_penalty_is_l1_of_uD (λ loss _ _, loss) I2 x0 x0 _
            (Q2Qc (1 # 10)) 1 2 1 eq_refl eq_refl eq_refl (le_n 1) eq_refl).
Defined.

(** X13 on the same inputs. *)
Lemma loss_fn_nonneg_witness :
  0 ≤ Q2Qc (1 # 10)
  ∧ ∃ loss,
      _loss_fn (λ loss _ _, loss) I2 false x0 (Q2Qc (1 # 10)) x0
      = Ok (Scalar loss) ∧ 0 ≤ loss.
Proof.
  assert (0 ≤ Q2Qc (1 # 10)) as Hlbda by (by vm_compute).
  split; [exact Hlbda|].
  refine (loss_fn_nonneg (λ loss _ _, loss) I2 x0 x0 (Q2Qc (1 # 10)) 1 2 2
            eq_refl eq_refl eq_refl (le_n 1) Hlbda).
Defined.

(** X14 for the first layer, with nested networks that have one learnt
    threshold. *)
Lemma prox_parameters_round_trip_witness :
  ∃ self' layer_params',
    @_initialize_prox_tv_per_layer nested_collaborators
      (lista_tv LEARN_PROX_PER_LAYER (ProxByLayer ∅) initial_groups) 0
      (initial_weights I2 (eye 2) 1 false) None
    = Ok (self', layer_params')
    ∧ ∃ nets net,
        tv_prox_tv self' = ProxByLayer nets ∧ nets !! 0%nat = Some net
        ∧ strip_prox_prefix layer_params'
          = @ravel_group_params nested_collaborators
              (@ListaLASSO_parameter_groups nested_collaborators net)
        ∧ ∀ key, String.prefix "prox:" key = false →
            layer_params' !! key
            = initial_weights I2 (eye 2) 1 false !! key.
Proof.
  eexists _, _. split; [reflexivity|].
  refine (@prox_parameters_round_trip nested_collaborators
            (lista_tv LEARN_PROX_PER_LAYER (ProxByLayer ∅) initial_groups) _
            0%nat (initial_weights I2 (eye 2) 1 false) _ None _ eq_refl).
  intros key Hkey. rewrite (prefixed_inv key Hkey), !append_cons.
  unfold initial_weights. by rewrite lookup_insert_ne, lookup_singleton_ne.
Defined.

End more_sample.
